(** * chess-rankings: the rating-history reconstruction of [ChessRankingsService]

    A shallow embedding of [src/chess_rankings_service.py] and the proofs of
    its specified properties.

    - Exceptions are values of [exn]; a call that may raise returns a
      [result], threaded with the monad notation of stdpp.
    - A [datetime.date] is represented by its proleptic Gregorian ordinal
      ([date.toordinal()]); the calendar of the [datetime] library
      ([_ymd2ord], validity of a year/month/day triple) is written out, and
      the module [CalendarFacts] shows that the representation is faithful:
      distinct valid triples have distinct ordinals, the order on ordinals
      is the order on triples, and the next calendar day is the next ordinal.
    - A Python [dict] used as a map is a [gmap].
    - The provider (the HTTP endpoint behind [requests.get]) and the clock
      ([datetime.now()]) are fields of a [world] record. *)

From Stdlib Require Import ZArith Lia.
From stdpp Require Import base option list list_numbers sorting gmap strings pretty.

Local Open Scope Z_scope.

(** ** Exceptions and results *)

Inductive exn : Type :=
  | APIError (message url : string)
  | PlayerNotFoundError (message : string)
  | RatingHistoryNotFoundError (username : string)
  | ClassicalRatingNotFoundError (username : string)
  | ValueError
  | OverflowError
  | IndexError
  | KeyError.

(** [isinstance(e, ChessRankingsServiceError)]: the four classes derived from
    the service's base class. *)
Definition is_ChessRankingsServiceError (e : exn) : bool :=
  match e with
  | APIError _ _ | PlayerNotFoundError _
  | RatingHistoryNotFoundError _ | ClassicalRatingNotFoundError _ => true
  | ValueError | OverflowError | IndexError | KeyError => false
  end.

Inductive result (A : Type) : Type :=
  | Ok (a : A)
  | Raise (e : exn).
Arguments Ok {A} a.
Arguments Raise {A} e.

#[global] Instance result_ret : MRet result := λ A a, Ok a.
#[global] Instance result_bind : MBind result := λ A B f r,
  match r with
  | Ok a => f a
  | Raise e => Raise e
  end.

(** ** Calendar dates ([datetime.date]) *)

Module Calendar.

Definition MINYEAR : Z := 1.
Definition MAXYEAR : Z := 9999.
(** [date.max.toordinal()], the ordinal of 9999-12-31. *)
Definition _MAXORDINAL : Z := 3652059.

Definition _is_leap (year : Z) : bool :=
  (year mod 4 =? 0) && (negb (year mod 100 =? 0) || (year mod 400 =? 0)).

Definition _DAYS_IN_MONTH (month : Z) : Z :=
  match month with
  | 1 => 31 | 2 => 28 | 3 => 31 | 4 => 30 | 5 => 31 | 6 => 30
  | 7 => 31 | 8 => 31 | 9 => 30 | 10 => 31 | 11 => 30 | 12 => 31
  | _ => -1
  end.

Definition _DAYS_BEFORE_MONTH (month : Z) : Z :=
  match month with
  | 1 => 0 | 2 => 31 | 3 => 59 | 4 => 90 | 5 => 120 | 6 => 151
  | 7 => 181 | 8 => 212 | 9 => 243 | 10 => 273 | 11 => 304 | 12 => 334
  | _ => -1
  end.

Definition _days_before_year (year : Z) : Z :=
  let y := year - 1 in
  y * 365 + y / 4 - y / 100 + y / 400.

Definition _days_in_month (year month : Z) : Z :=
  if (month =? 2) && _is_leap year then 29 else _DAYS_IN_MONTH month.

Definition _days_before_month (year month : Z) : Z :=
  _DAYS_BEFORE_MONTH month + (if (2 <? month) && _is_leap year then 1 else 0).

Definition _ymd2ord (year month day : Z) : Z :=
  _days_before_year year + _days_before_month year month + day.

(** The check made by the [date] and [datetime] constructors. *)
Definition valid_ymd (year month day : Z) : bool :=
  (MINYEAR <=? year) && (year <=? MAXYEAR) &&
  (1 <=? month) && (month <=? 12) &&
  (1 <=? day) && (day <=? _days_in_month year month).

(** The calendar day after [year]-[month]-[day]. *)
Definition next_day (ymd : Z * Z * Z) : Z * Z * Z :=
  let '(year, month, day) := ymd in
  if day <? _days_in_month year month then (year, month, day + 1)
  else if month <? 12 then (year, month + 1, 1)
  else (year + 1, 1, 1).

(** The order of [date.__lt__]: year, then month, then day. *)
Definition ymd_lt (a b : Z * Z * Z) : Prop :=
  let '(y1, m1, d1) := a in
  let '(y2, m2, d2) := b in
  y1 < y2 ∨ (y1 = y2 ∧ (m1 < m2 ∨ (m1 = m2 ∧ d1 < d2))).

Definition _DI400Y : Z := 146097.
Definition _DI100Y : Z := 36524.
Definition _DI4Y : Z := 1461.

(** The year, month and day of an ordinal ([date.fromordinal]). *)
Definition _ord2ymd (n : Z) : Z * Z * Z :=
  let n := n - 1 in
  let n400 := n / _DI400Y in
  let n := n mod _DI400Y in
  let year := n400 * 400 + 1 in
  let n100 := n / _DI100Y in
  let n := n mod _DI100Y in
  let n4 := n / _DI4Y in
  let n := n mod _DI4Y in
  let n1 := n / 365 in
  let n := n mod 365 in
  let year := year + n100 * 100 + n4 * 4 + n1 in
  if (n1 =? 4) || (n100 =? 4) then (year - 1, 12, 31)
  else
    let leapyear := (n1 =? 3) && (negb (n4 =? 24) || (n100 =? 3)) in
    let month := Z.shiftr (n + 50) 5 in
    let preceding :=
      _DAYS_BEFORE_MONTH month + (if (2 <? month) && leapyear then 1 else 0) in
    if n <? preceding then
      let month := month - 1 in
      let preceding :=
        preceding - (_DAYS_IN_MONTH month + (if (month =? 2) && leapyear then 1 else 0)) in
      (year, month, n - preceding + 1)
    else (year, month, n - preceding + 1).

(** [%b] in the C locale. *)
Definition month_abbr (month : Z) : string :=
  match month with
  | 1 => "Jan" | 2 => "Feb" | 3 => "Mar" | 4 => "Apr" | 5 => "May" | 6 => "Jun"
  | 7 => "Jul" | 8 => "Aug" | 9 => "Sep" | 10 => "Oct" | 11 => "Nov" | 12 => "Dec"
  | _ => ""
  end.

(** A number in at least two, and in at least four, decimal digits
    ([%d], [%m] and [%Y]). *)
Definition pad2 (n : Z) : string :=
  if n <? 10 then "0" +:+ pretty n else pretty n.

Definition pad4 (n : Z) : string :=
  if n <? 10 then "000" +:+ pretty n
  else if n <? 100 then "00" +:+ pretty n
  else if n <? 1000 then "0" +:+ pretty n
  else pretty n.

(** The text of [%b %d] for a month and a day. *)
Definition month_day_label (md : Z * Z) : string :=
  month_abbr md.1 +:+ " " +:+ pad2 md.2.

End Calendar.

(** A date, as its ordinal: day 1 is 0001-01-01. *)
Abbreviation date := Z (only parsing).

(** The range of a C [int]: the [datetime] constructor converts its three
    arguments to C integers before it looks at them. *)
Definition fits_c_int (z : Z) : bool :=
  (-2147483648 <=? z) && (z <=? 2147483647).

(** [datetime(year, month, day).date()]: [OverflowError] for an argument
    outside the range of a C int, [ValueError] for arguments that are no
    calendar date. *)
Definition datetime_date (year month day : Z) : result date :=
  if negb (fits_c_int year && fits_c_int month && fits_c_int day)
  then Raise OverflowError
  else if Calendar.valid_ymd year month day
       then Ok (Calendar._ymd2ord year month day)
       else Raise ValueError.

(** [d - timedelta(days=days)]; [OverflowError] outside [date.min .. date.max]. *)
Definition date_sub_days (d : date) (days : Z) : result date :=
  let o := d - days in
  if (0 <? o) && (o <=? Calendar._MAXORDINAL) then Ok o else Raise OverflowError.

(** [d.strftime('%b %d')] *)
Definition strftime_b_d (d : date) : string :=
  let '(year, month, day) := Calendar._ord2ymd d in
  Calendar.month_abbr month +:+ " " +:+ Calendar.pad2 day.

(** [d.strftime('%Y-%m-%d')] *)
Definition strftime_Y_m_d (d : date) : string :=
  let '(year, month, day) := Calendar._ord2ymd d in
  Calendar.pad4 year +:+ "-" +:+ Calendar.pad2 month +:+ "-" +:+ Calendar.pad2 day.

(** [range(start, stop, -1)]: [start], [start - 1], ..., [stop + 1]. *)
Definition range_down (start stop : Z) : list Z :=
  (λ k, start - k) <$> seqZ 0 (start - stop).

(** ** The rating timeline *)

(** A raw observation, [[year, zero-indexed month, day, rating]]. *)
Definition point : Type := list Z.

(** [for point in classical_history: ... rating_dict[date] = rating]; the
    unpacking [year, month, day, rating = point] raises [ValueError] when
    the point does not have four items. *)
Fixpoint build_loop (rating_dict : gmap Z Z) (classical_history : list point)
  : result (gmap Z Z) :=
  match classical_history with
  | [] => Ok rating_dict
  | point :: rest =>
      match point with
      | [year; month; day; rating] =>
          date ← datetime_date year (month + 1) day;
          build_loop (<[date := rating]> rating_dict) rest
      | _ => Raise ValueError
      end
  end.

Definition _build_date_to_rating_mapping (classical_history : list point)
  : result (gmap Z Z) :=
  build_loop ∅ classical_history.

(** [max(dates)] for a non-empty list. *)
Definition max_date (d : date) (dates : list date) : date := foldl Z.max d dates.

Definition _get_first_rating_before_date (rating_dict : gmap Z Z) (target_date : date)
  : result (option Z) :=
  let dates_before_target :=
    filter (λ date, date < target_date) (map_to_list rating_dict).*1 in
  match dates_before_target with
  | d :: ds =>
      let most_recent_date := max_date d ds in
      match rating_dict !! most_recent_date with
      | Some rating => Ok (Some rating)
      | None => Raise KeyError
      end
  | [] => Ok None
  end.

(** The loop of [_generate_last_30_days_ratings]. *)
Fixpoint fill_loop (rating_dict : gmap Z Z) (last_known_rating : option Z)
    (dates : list date) : list (option Z) :=
  match dates with
  | [] => []
  | date :: rest =>
      let last_known_rating :=
        match rating_dict !! date with
        | Some rating => Some rating
        | None => last_known_rating
        end in
      last_known_rating :: fill_loop rating_dict last_known_rating rest
  end.

(** [[today - timedelta(days=i) for i in range(30, -1, -1)]] *)
Definition last_30_days (today : date) : result (list date) :=
  mapM (date_sub_days today) (range_down 30 (-1)).

(** [today] is the value of [datetime.now().date()]. *)
Definition _generate_last_30_days_ratings (today : date) (rating_dict : gmap Z Z)
  : result (list (option Z)) :=
  last_30_days ← last_30_days today;
  start_date ← from_option Ok (Raise IndexError) (last_30_days !! 0%nat);
  last_known_rating ←
    match rating_dict !! start_date with
    | Some rating => Ok (Some rating)
    | None => _get_first_rating_before_date rating_dict start_date
    end;
  Ok (fill_loop rating_dict last_known_rating last_30_days).

(** ** The provider and the clock *)

(** The outcome of [requests.get(url)] followed by [raise_for_status()] and
    [json()]: a transport or HTTP failure, or the decoded document. *)
Inductive response (A : Type) : Type :=
  | RequestFailed (reason : string)
  | Json (data : A).
Arguments RequestFailed {A} reason.
Arguments Json {A} data.

(** A leaderboard entry; [player_username] is [player.get('username')]. *)
Record player : Type := { player_username : option string }.

(** The leaderboard document. [users] is [None] when the key is missing and
    [Some None] when it is present with a null value. *)
Record leaderboard : Type := { users : option (option (list player)) }.

(** One category of a rating-history document; [name] is
    [variant.get('name')], [points] is [None] when the key is missing. *)
Record variant : Type := { name : option string; points : option (list point) }.

(** A document is [None] when the body is the JSON value null. *)
Record world : Type := {
  now_date : date;
  get_leaderboard : string → response (option leaderboard);
  get_rating_history : string → response (option (list variant))
}.

Definition BASE_URL : string := "https://lichess.org/api".

Definition leaderboard_url (count : Z) : string :=
  BASE_URL +:+ "/player/top/" +:+ pretty count +:+ "/classical".

Definition rating_history_url (username : string) : string :=
  BASE_URL +:+ "/user/" +:+ username +:+ "/rating-history".

Definition _fetch_json {A : Type} (requests_get : string → response A) (url : string)
  : result A :=
  match requests_get url with
  | Json data => Ok data
  | RequestFailed e =>
      Raise (APIError ("An error occurred while fetching data: " +:+ e) url)
  end.

(** [player.get('username')] when it is truthy (present and not empty). *)
Definition truthy_username (p : player) : option string :=
  match player_username p with
  | Some username => if decide (username = "") then None else Some username
  | None => None
  end.

Definition _get_top_players_usernames (w : world) (count : Z) : result (list string) :=
  data ← _fetch_json (get_leaderboard w) (leaderboard_url count);
  match data with
  | None =>
      Raise (PlayerNotFoundError "Could not retrieve players from the leaderboard.")
  | Some data =>
      match users data with
      | None =>
          Raise (PlayerNotFoundError "Could not retrieve players from the leaderboard.")
      | Some players =>
          match players with
          | None | Some [] => Raise (PlayerNotFoundError "No players found on the leaderboard")
          | Some players => Ok (omap truthy_username players)
          end
      end
  end.

Definition _get_player_rating_history (w : world) (username : string)
  : result (list variant) :=
  data ← _fetch_json (get_rating_history w) (rating_history_url username);
  match data with
  | None => Raise (RatingHistoryNotFoundError username)
  | Some data => Ok data
  end.

Fixpoint _extract_classical_rating_history (rating_data : list variant) (username : string)
  : result (list point) :=
  match rating_data with
  | [] => Raise (ClassicalRatingNotFoundError username)
  | variant :: rest =>
      if decide (name variant = Some "Classical")
      then Ok (default [] (points variant))
      else _extract_classical_rating_history rest username
  end.

Definition _get_last_30_days_classical_ratings_for_player (w : world) (username : string)
  : result (list (option Z)) :=
  rating_data ← _get_player_rating_history w username;
  classical_history ← _extract_classical_rating_history rating_data username;
  rating_dict ← _build_date_to_rating_mapping classical_history;
  _generate_last_30_days_ratings (now_date w) rating_dict.

(** ** The bulk export *)

(** A row of the table: [[username] + ratings]. *)
Definition row : Type := string * list (option Z).

(** A submitted task: the username it was submitted for and what
    [future.result()] gives. *)
Definition future : Type := string * result (list (option Z)).

(** [{executor.submit(..., username): username for username in usernames}]:
    one task per position of [usernames]. *)
Definition submit_all (w : world) (usernames : list string) : list future :=
  (λ username, (username, _get_last_30_days_classical_ratings_for_player w username))
    <$> usernames.

(** [as_completed] yields every future once, in the order in which the tasks
    finish: [schedule] lists the positions of the futures in that order. *)
Definition as_completed (schedule : list nat) (futures : list future) : list future :=
  omap (λ i, futures !! i) schedule.

Definition is_completion_order (schedule : list nat) (futures : list future) : Prop :=
  schedule ≡ₚ seq 0 (length futures).

(** The body of [for future in as_completed(...)]: only exceptions of the
    service's own hierarchy are handled. *)
Fixpoint collect_loop (data_rows : list row) (completed : list future)
  : result (list row) :=
  match completed with
  | [] => Ok data_rows
  | (username, outcome) :: rest =>
      row ← match outcome with
            | Ok player_ratings => Ok (username, player_ratings)
            | Raise e =>
                if is_ChessRankingsServiceError e
                then Ok (username, replicate 31 None)
                else Raise e
            end;
      collect_loop (data_rows ++ [row]) rest
  end.

(** [{username: index for index, username in enumerate(usernames)}] *)
Definition username_order (usernames : list string) : gmap string nat :=
  foldl (λ d iu, <[iu.2 := iu.1]> d) ∅ (imap (λ index username, (index, username)) usernames).

(** [list.sort(key=key)]: ascending and stable. *)
Fixpoint insert_by_key {A : Type} (key : A → nat) (x : A) (l : list A) : list A :=
  match l with
  | [] => [x]
  | y :: l' => if (key x <=? key y)%nat then x :: l else y :: insert_by_key key x l'
  end.

Definition sort_by_key {A : Type} (key : A → nat) (l : list A) : list A :=
  foldr (insert_by_key key) [] l.

(** [data_rows.sort(key=lambda row: username_order.get(row[0], 0))] *)
Definition sort_rows (usernames : list string) (data_rows : list row) : list row :=
  let username_order := username_order usernames in
  sort_by_key (λ row : row, default 0%nat (username_order !! row.1)) data_rows.

(** The rows handed to the CSV writer, together with the usernames for which
    a task was submitted to the executor. The header is made from
    [date_range]; [ThreadPoolExecutor] raises [ValueError] when [max_workers]
    is not positive. Writing the file is outside the model. *)
Definition generate_rating_csv_for_top_50_classical_players
    (w : world) (schedule : list nat) : list string * result (list row) :=
  match _get_top_players_usernames w 50 with
  | Raise e => ([], Raise e)
  | Ok usernames =>
      match last_30_days (now_date w) with
      | Raise e => ([], Raise e)
      | Ok date_range =>
          let max_workers := Z.min 10 (Z.of_nat (length usernames)) in
          if max_workers <=? 0 then ([], Raise ValueError)
          else
            let futures := submit_all w usernames in
            (usernames,
             data_rows ← collect_loop [] (as_completed schedule futures);
             Ok (sort_rows usernames data_rows))
      end
  end.

(** ** The reports around the reconstruction *)

(** A Python [dict] with string keys, in insertion order: [d[k] = v]
    replaces the value of a key that is present and appends a new key. *)
Fixpoint dict_setitem {V : Type} (k : string) (v : V) (d : list (string * V))
  : list (string * V) :=
  match d with
  | [] => [(k, v)]
  | (k', v') :: d' =>
      if decide (k = k') then (k', v) :: d' else (k', v') :: dict_setitem k v d'
  end.

(** [dict(pairs)] *)
Definition dict_of_pairs {V : Type} (pairs : list (string * V)) : list (string * V) :=
  foldl (λ d kv, dict_setitem kv.1 kv.2 d) [] pairs.

(** The lines printed by [print_top_50_classical_players]. *)
Definition print_top_50_classical_players (w : world) : result (list string) :=
  _get_top_players_usernames w 50.

(** The username and the [output_ratings] dictionary that
    [print_last_30_day_rating_for_top_player] prints on one line;
    [usernames[0]] raises [IndexError] on an empty list. *)
Definition print_last_30_day_rating_for_top_player (w : world)
  : result (string * list (string * option Z)) :=
  usernames ← _get_top_players_usernames w 1;
  username ← from_option Ok (Raise IndexError) (usernames !! 0%nat);
  ratings ← _get_last_30_days_classical_ratings_for_player w username;
  dates ← last_30_days (now_date w);
  let date_labels := strftime_b_d <$> dates in
  let output_ratings := dict_of_pairs (zip date_labels ratings) in
  Ok (username, output_ratings).

(** [str(e)] for the exceptions of the service's hierarchy, the only ones
    the code prints; [None] for the others. *)
Definition str_service_error (e : exn) : option string :=
  match e with
  | APIError message url => Some ("APIError: " +:+ message +:+ " | URL: " +:+ url)
  | PlayerNotFoundError message => Some message
  | RatingHistoryNotFoundError username =>
      Some ("Rating history not found for user '" +:+ username +:+ "'")
  | ClassicalRatingNotFoundError username =>
      Some ("No Classical rating history found for user '" +:+ username +:+ "'")
  | ValueError | OverflowError | IndexError | KeyError => None
  end.

(** The loop of the bulk export together with the lines it prints: one
    line for every task whose failure it handles. *)
Fixpoint collect_loop_out (out : list string) (data_rows : list row)
    (completed : list future) : list string * result (list row) :=
  match completed with
  | [] => (out, Ok data_rows)
  | (username, outcome) :: rest =>
      match outcome with
      | Ok player_ratings =>
          collect_loop_out out (data_rows ++ [(username, player_ratings)]) rest
      | Raise e =>
          match str_service_error e with
          | Some message =>
              collect_loop_out
                (out ++ ["An error occurred while processing user " +:+ username
                         +:+ ": " +:+ message])
                (data_rows ++ [(username, replicate 31 None)]) rest
          | None => (out, Raise e)
          end
      end
  end.

(** The header and the data rows handed to the CSV writer. *)
Definition csv_table (w : world) (schedule : list nat)
  : result (list string * list row) :=
  usernames ← _get_top_players_usernames w 50;
  date_range ← last_30_days (now_date w);
  let header := "username" :: (strftime_Y_m_d <$> date_range) in
  data_rows ← (generate_rating_csv_for_top_50_classical_players w schedule).2;
  Ok (header, data_rows).

(** ** Vocabulary of the specification *)

(** The rating in force on [date]: that of the latest observation made on or
    before it, if there is one. *)
Definition carried (rating_dict : gmap Z Z) (date : date) (o : option Z) : Prop :=
  match o with
  | Some rating =>
      ∃ d, rating_dict !! d = Some rating ∧ d ≤ date ∧
           ∀ d', is_Some (rating_dict !! d') → d' ≤ date → d' ≤ d
  | None => ∀ d', is_Some (rating_dict !! d') → date < d'
  end.

(** The rating of the latest observation strictly before [target_date]. *)
Definition most_recent_before (rating_dict : gmap Z Z) (target_date : date)
    (res : option Z) : Prop :=
  match res with
  | Some rating =>
      ∃ d, rating_dict !! d = Some rating ∧ d < target_date ∧
           ∀ d', is_Some (rating_dict !! d') → d' < target_date → d' ≤ d
  | None => ∀ d', is_Some (rating_dict !! d') → target_date ≤ d'
  end.

(** An observation that converts to a calendar date. *)
Definition well_formed (p : point) : Prop :=
  ∃ year month day rating,
    p = [year; month; day; rating] ∧ Calendar.valid_ymd year (month + 1) day = true.

(** The exception of the [datetime] constructor for arguments that are no
    calendar date. *)
Definition date_error (year month day : Z) : exn :=
  if fits_c_int year && fits_c_int month && fits_c_int day
  then ValueError else OverflowError.

(** A leaderboard entry without a usable username. *)
Definition blank (p : player) : Prop :=
  player_username p = None ∨ player_username p = Some "".

#[global] Instance blank_dec (p : player) : Decision (blank p).
Proof. unfold blank. apply _. Defined.

(** A task outcome that the batch loop turns into a row. *)
Definition handled (outcome : result (list (option Z))) : Prop :=
  match outcome with
  | Ok _ => True
  | Raise e => is_ChessRankingsServiceError e = true
  end.

(** The row of a task: its ratings, or 31 absent entries when it failed. *)
Definition row_of (f : future) : row :=
  (f.1, match f.2 with
        | Ok player_ratings => player_ratings
        | Raise _ => replicate 31 None
        end).

Definition key_le {A : Type} (key : A → nat) (a b : A) : Prop := (key a ≤ key b)%nat.

(** A task that raised. *)
Definition failed (outcome : result (list (option Z))) : Prop :=
  match outcome with
  | Ok _ => False
  | Raise _ => True
  end.

#[global] Instance failed_dec (outcome : result (list (option Z))) : Decision (failed outcome).
Proof. destruct outcome; apply _. Defined.

(** The line printed for a task that failed with an error of the service. *)
Definition diagnostic (f : future) : option string :=
  match f.2 with
  | Ok _ => None
  | Raise e =>
      (λ message, "An error occurred while processing user " +:+ f.1 +:+ ": " +:+ message)
        <$> str_service_error e
  end.

(** *** Statements that the code does not satisfy *)

(** With the leaderboard read, the clock in range and the tasks collected in
    a completion order, every failure of a player's task becomes an
    all-absent row and the batch completes. *)
Definition every_failure_isolated (w : world) (schedule : list nat) : Prop :=
  ∀ usernames,
    _get_top_players_usernames w 50 = Ok usernames →
    usernames ≠ [] →
    30 < now_date w ≤ Calendar._MAXORDINAL →
    is_completion_order schedule (submit_all w usernames) →
    ∃ data_rows,
      (generate_rating_csv_for_top_50_classical_players w schedule).2 = Ok data_rows ∧
      ∀ username e,
        username ∈ usernames →
        _get_last_30_days_classical_ratings_for_player w username = Raise e →
        (username, replicate 31 None) ∈ data_rows.

(** The rows come out in the order of the usernames, whatever they are. *)
Definition output_in_input_order (w : world) (schedule : list nat) : Prop :=
  ∀ usernames data_rows,
    _get_top_players_usernames w 50 = Ok usernames →
    is_completion_order schedule (submit_all w usernames) →
    (generate_rating_csv_for_top_50_classical_players w schedule).2 = Ok data_rows →
    data_rows.*1 = usernames.

(** [RatingHistoryNotFoundError] is raised exactly for an absent or an empty
    document. *)
Definition not_found_iff_absent_or_empty (w : world) (username : string) : Prop :=
  _get_player_rating_history w username = Raise (RatingHistoryNotFoundError username) ↔
  get_rating_history w (rating_history_url username) = Json None ∨
  get_rating_history w (rating_history_url username) = Json (Some []).

(** ** A sample provider *)

Definition sample_history (url : string) : response (option (list variant)) :=
  if decide (url = rating_history_url "alice") then
    Json (Some [ {| name := Some "Blitz"; points := Some [[2024; 0; 10; 1900]] |};
                 {| name := Some "Classical";
                    points := Some [[2024; 0; 15; 1500]; [2024; 0; 20; 1550]] |} ])
  else if decide (url = rating_history_url "bob") then Json (Some [])
  else if decide (url = rating_history_url "carol") then
    Json (Some [ {| name := Some "Classical"; points := Some [[2024; 1; 30; 1500]] |} ])
  else if decide (url = rating_history_url "dave") then Json None
  else RequestFailed "404 Client Error".

(** The clock reads 2024-01-22; the leaderboard lists [entries]. *)
Definition sample_world (entries : list (option string)) : world :=
  {| now_date := 738907;
     get_leaderboard := λ _,
       Json (Some {| users := Some (Some ((λ o, {| player_username := o |}) <$> entries)) |});
     get_rating_history := sample_history |}.


(** * Proofs *)

(** ** The calendar *)

Module CalendarFacts.
Import Calendar.

Ltac leap_cases year :=
  unfold _is_leap;
  destruct (Z.eqb_spec (year mod 4) 0), (Z.eqb_spec (year mod 100) 0),
           (Z.eqb_spec (year mod 400) 0); simpl.

Lemma days_before_year_succ year :
  _days_before_year (year + 1) =
  _days_before_year year + 365 + (if _is_leap year then 1 else 0).
Proof.
  unfold _days_before_year. leap_cases year; Z.div_mod_to_equations; lia.
Qed.

Lemma days_before_month_succ year month :
  1 ≤ month < 12 →
  _days_before_month year (month + 1) =
  _days_before_month year month + _days_in_month year month.
Proof.
  intros Hm. unfold _days_before_month, _days_in_month.
  assert (Hcases : month = 1 ∨ month = 2 ∨ month = 3 ∨ month = 4 ∨ month = 5 ∨
                   month = 6 ∨ month = 7 ∨ month = 8 ∨ month = 9 ∨ month = 10 ∨
                   month = 11) by lia.
  destruct (_is_leap year);
    repeat (destruct Hcases as [-> | Hcases]); subst; reflexivity.
Qed.

Lemma days_in_year year :
  _days_before_month year 12 + _days_in_month year 12 =
  365 + (if _is_leap year then 1 else 0).
Proof. unfold _days_before_month, _days_in_month. by destruct (_is_leap year). Qed.

Lemma valid_ymd_spec year month day :
  valid_ymd year month day = true ↔
  (MINYEAR ≤ year ≤ MAXYEAR) ∧ (1 ≤ month ≤ 12) ∧ (1 ≤ day ≤ _days_in_month year month).
Proof.
  unfold valid_ymd. rewrite !andb_true_iff, !Z.leb_le. tauto.
Qed.

Lemma ymd2ord_next_day year month day :
  valid_ymd year month day = true →
  let '(year', month', day') := next_day (year, month, day) in
  _ymd2ord year' month' day' = _ymd2ord year month day + 1.
Proof.
  rewrite valid_ymd_spec. intros (Hy & Hm & Hd). unfold next_day, _ymd2ord.
  destruct (Z.ltb_spec day (_days_in_month year month)); [lia|].
  destruct (Z.ltb_spec month 12).
  - rewrite days_before_month_succ by lia. lia.
  - assert (month = 12) as -> by lia.
    rewrite days_before_year_succ. pose proof (days_in_year year).
    change (_days_before_month (year + 1) 1) with 0. lia.
Qed.

Lemma days_in_month_bounds year month :
  1 ≤ month ≤ 12 → 28 ≤ _days_in_month year month ≤ 31.
Proof.
  intros Hm. unfold _days_in_month.
  assert (Hcases : month = 1 ∨ month = 2 ∨ month = 3 ∨ month = 4 ∨ month = 5 ∨
                   month = 6 ∨ month = 7 ∨ month = 8 ∨ month = 9 ∨ month = 10 ∨
                   month = 11 ∨ month = 12) by lia.
  destruct (_is_leap year);
    repeat (destruct Hcases as [-> | Hcases]); subst; simpl; lia.
Qed.

(** Months are laid out one after the other within a year. *)
Lemma days_before_month_mono year m1 m2 :
  1 ≤ m1 → m1 < m2 → m2 ≤ 12 →
  _days_before_month year m1 + _days_in_month year m1 ≤ _days_before_month year m2.
Proof.
  intros H1 Hlt H2.
  replace m2 with (m1 + 1 + Z.of_nat (Z.to_nat (m2 - m1 - 1))) in * by lia.
  induction (Z.to_nat (m2 - m1 - 1)) as [|k IH].
  - rewrite Z.add_0_r. rewrite days_before_month_succ; lia.
  - etrans; [apply IH; lia|].
    replace (m1 + 1 + Z.of_nat (S k)) with (m1 + 1 + Z.of_nat k + 1) by lia.
    rewrite days_before_month_succ by lia.
    pose proof (days_in_month_bounds year (m1 + 1 + Z.of_nat k)). lia.
Qed.

Lemma days_before_month_end year month :
  1 ≤ month ≤ 12 →
  _days_before_month year month + _days_in_month year month
  ≤ 365 + (if _is_leap year then 1 else 0).
Proof.
  intros Hm. destruct (decide (month = 12)) as [->|].
  - by rewrite days_in_year.
  - rewrite <- days_in_year. pose proof (days_before_month_mono year month 12).
    pose proof (days_in_month_bounds year 12). lia.
Qed.

Lemma days_before_month_nonneg year month :
  1 ≤ month ≤ 12 → 0 ≤ _days_before_month year month.
Proof.
  intros Hm. destruct (decide (month = 1)) as [->|].
  - unfold _days_before_month. simpl. lia.
  - pose proof (days_before_month_mono year 1 month) as Hmono.
    change (_days_before_month year 1) with 0 in Hmono.
    pose proof (days_in_month_bounds year 1). lia.
Qed.

Lemma days_before_year_le y1 y2 :
  y1 ≤ y2 → _days_before_year y1 ≤ _days_before_year y2.
Proof.
  intros Hle. replace y2 with (y1 + Z.of_nat (Z.to_nat (y2 - y1))) by lia.
  induction (Z.to_nat (y2 - y1)) as [|k IH].
  - rewrite Z.add_0_r. lia.
  - replace (y1 + Z.of_nat (S k)) with (y1 + Z.of_nat k + 1) by lia.
    rewrite days_before_year_succ. destruct (_is_leap _); lia.
Qed.

Lemma days_before_year_mono y1 y2 :
  y1 < y2 →
  _days_before_year y1 + 365 + (if _is_leap y1 then 1 else 0) ≤ _days_before_year y2.
Proof.
  intros Hlt. rewrite <- days_before_year_succ. apply days_before_year_le. lia.
Qed.

(** The order on ordinals is the order on year/month/day triples. *)
Lemma ymd2ord_lt y1 m1 d1 y2 m2 d2 :
  valid_ymd y1 m1 d1 = true → valid_ymd y2 m2 d2 = true →
  ymd_lt (y1, m1, d1) (y2, m2, d2) →
  _ymd2ord y1 m1 d1 < _ymd2ord y2 m2 d2.
Proof.
  rewrite !valid_ymd_spec. intros (Hy1 & Hm1 & Hd1) (Hy2 & Hm2 & Hd2) Hlt.
  unfold _ymd2ord. destruct Hlt as [Hlt | [-> [Hlt | [-> Hlt]]]].
  - pose proof (days_before_year_mono y1 y2 Hlt).
    pose proof (days_before_month_end y1 m1 Hm1).
    pose proof (days_before_month_nonneg y2 m2 Hm2). lia.
  - pose proof (days_before_month_mono y2 m1 m2). lia.
  - lia.
Qed.

Lemma ymd2ord_inj y1 m1 d1 y2 m2 d2 :
  valid_ymd y1 m1 d1 = true → valid_ymd y2 m2 d2 = true →
  _ymd2ord y1 m1 d1 = _ymd2ord y2 m2 d2 →
  (y1, m1, d1) = (y2, m2, d2).
Proof.
  intros H1 H2 Heq.
  destruct (decide (ymd_lt (y1, m1, d1) (y2, m2, d2))) as [Hlt|Hn1].
  { pose proof (ymd2ord_lt _ _ _ _ _ _ H1 H2 Hlt). lia. }
  destruct (decide (ymd_lt (y2, m2, d2) (y1, m1, d1))) as [Hlt|Hn2].
  { pose proof (ymd2ord_lt _ _ _ _ _ _ H2 H1 Hlt). lia. }
  unfold ymd_lt in *. f_equal; [f_equal|]; lia.
Qed.

Lemma ymd2ord_range year month day :
  valid_ymd year month day = true →
  1 ≤ _ymd2ord year month day ≤ _MAXORDINAL.
Proof.
  rewrite valid_ymd_spec. unfold MINYEAR, MAXYEAR. intros (Hy & Hm & Hd).
  unfold _ymd2ord.
  pose proof (days_before_month_nonneg year month Hm).
  pose proof (days_before_month_end year month Hm).
  split.
  - pose proof (days_before_year_le 1 year (proj1 Hy)) as H1.
    change (_days_before_year 1) with 0 in H1. lia.
  - assert (_days_before_year (year + 1) ≤ _days_before_year 10000)
      by (apply days_before_year_le; lia).
    rewrite days_before_year_succ in *.
    change (_days_before_year 10000) with 3652059 in *. unfold _MAXORDINAL. lia.
Qed.

Lemma next_day_valid year month day :
  valid_ymd year month day = true →
  _ymd2ord year month day < _MAXORDINAL →
  let '(year', month', day') := next_day (year, month, day) in
  valid_ymd year' month' day' = true.
Proof.
  intros Hv Hlt. pose proof Hv as (Hy & Hm & Hd)%valid_ymd_spec.
  unfold next_day, MINYEAR, MAXYEAR in *.
  destruct (Z.ltb_spec day (_days_in_month year month)).
  { apply valid_ymd_spec. unfold MINYEAR, MAXYEAR. lia. }
  destruct (Z.ltb_spec month 12).
  { apply valid_ymd_spec. unfold MINYEAR, MAXYEAR.
    pose proof (days_in_month_bounds year (month + 1)). lia. }
  apply valid_ymd_spec. unfold MINYEAR, MAXYEAR.
  change (_days_in_month (year + 1) 1) with 31.
  assert (year ≠ 9999); [|lia].
  intros ->. assert (month = 12) as -> by lia.
  change (_days_in_month 9999 12) with 31 in *. assert (day = 31) as -> by lia.
  vm_compute in Hlt. done.
Qed.
End CalendarFacts.

(** ** The timeline and the window *)

Section Timeline.
Implicit Types (rating_dict : gmap Z Z) (dates : list date).

Lemma keys_spec rating_dict (d : date) :
  d ∈ (map_to_list rating_dict).*1 ↔ is_Some (rating_dict !! d).
Proof.
  rewrite list_elem_of_fmap. split.
  - intros ([k v] & -> & Hin). apply elem_of_map_to_list in Hin. by exists v.
  - intros [v Hv]. exists (d, v). split; [done|]. by apply elem_of_map_to_list.
Qed.

Lemma max_date_spec (d : date) dates :
  max_date d dates ∈ d :: dates ∧ ∀ x, x ∈ d :: dates → x ≤ max_date d dates.
Proof.
  unfold max_date. revert d. induction dates as [|y ys IH]; intros d; simpl.
  - split; [left|]. intros x Hx. apply list_elem_of_singleton in Hx. lia.
  - destruct (IH (Z.max d y)) as [Hin Hub]. split.
    + apply elem_of_cons in Hin as [Heq | Hin].
      * rewrite Heq. destruct (Z.max_spec d y) as [[_ ->] | [_ ->]];
          [right; left | left].
      * right. by right.
    + intros x Hx. rewrite !elem_of_cons in Hx.
      destruct Hx as [-> | [-> | Hx]].
      * etrans; [|apply Hub; left]. lia.
      * etrans; [|apply Hub; left]. lia.
      * apply Hub. by right.
Qed.

Lemma get_first_rating_before_date_ok rating_dict target_date :
  ∃ res, _get_first_rating_before_date rating_dict target_date = Ok res ∧
         most_recent_before rating_dict target_date res.
Proof.
  unfold _get_first_rating_before_date. set (l := filter _ _).
  assert (Hl : ∀ x, x ∈ l ↔ x < target_date ∧ is_Some (rating_dict !! x)).
  { intros x. unfold l. by rewrite list_elem_of_filter, keys_spec. }
  clearbody l. destruct l as [|d ds].
  - exists None. split; [done|]. intros d' Hd'.
    destruct (decide (d' < target_date)) as [Hlt|]; [|lia].
    assert (d' ∈ @nil Z) as Hin by (by apply Hl). by apply elem_of_nil in Hin.
  - destruct (max_date_spec d ds) as [Hin Hub].
    apply Hl in Hin as [Hlt [r Hr]].
    cbv zeta. rewrite Hr. exists (Some r). split; [done|]. exists (max_date d ds).
    split_and!; [done..|]. intros d' Hd' Hlt'. by apply Hub, Hl.
Qed.

Lemma most_recent_before_carried rating_dict target_date res :
  most_recent_before rating_dict target_date res →
  carried rating_dict (target_date - 1) res.
Proof.
  destruct res as [r|]; simpl.
  - intros (d & Hd & Hlt & Hmax). exists d. split_and!; [done|lia|].
    intros d' Hd' Hle. apply Hmax; [done|lia].
  - intros Hnone d' Hd'. specialize (Hnone d' Hd'). lia.
Qed.

Lemma carried_step rating_dict (s : date) c :
  carried rating_dict (s - 1) c →
  carried rating_dict s
    (match rating_dict !! s with Some rating => Some rating | None => c end).
Proof.
  intros Hc. destruct (rating_dict !! s) as [r|] eqn:Hs.
  - exists s. split_and!; [done|lia|auto].
  - destruct c as [r|]; simpl in *.
    + destruct Hc as (d & Hd & Hle & Hmax). exists d. split_and!; [done|lia|].
      intros d' Hd' Hle'. destruct (decide (d' = s)) as [->|].
      * rewrite Hs in Hd'. by destruct Hd'.
      * apply Hmax; [done|lia].
    + intros d' Hd'. destruct (decide (d' = s)) as [->|].
      * rewrite Hs in Hd'. by destruct Hd'.
      * specialize (Hc d' Hd'). lia.
Qed.

Lemma carried_unique rating_dict (d : date) o1 o2 :
  carried rating_dict d o1 → carried rating_dict d o2 → o1 = o2.
Proof.
  destruct o1 as [r1|], o2 as [r2|]; simpl; [| | |done].
  - intros (d1 & H1 & Hle1 & Hmax1) (d2 & H2 & Hle2 & Hmax2).
    assert (d1 = d2) as -> by (apply Z.le_antisymm; [ apply Hmax2 | apply Hmax1 ]; eauto).
    congruence.
  - intros (d1 & H1 & Hle1 & _) Hnone. specialize (Hnone d1 (mk_is_Some _ _ H1)). lia.
  - intros Hnone (d2 & H2 & Hle2 & _). specialize (Hnone d2 (mk_is_Some _ _ H2)). lia.
Qed.

Lemma length_fill_loop rating_dict c dates :
  length (fill_loop rating_dict c dates) = length dates.
Proof. revert c. induction dates as [|d ds IH]; intros c; simpl; [done|]. by rewrite IH. Qed.

(** The seed does not matter when the first date has an observation. *)
Lemma fill_loop_head_known rating_dict c c' (d : date) dates r :
  rating_dict !! d = Some r →
  fill_loop rating_dict c (d :: dates) = fill_loop rating_dict c' (d :: dates).
Proof. intros Hd. simpl. by rewrite Hd. Qed.

Lemma fill_loop_lookup_S rating_dict c dates (i : nat) (d : date) :
  dates !! S i = Some d →
  fill_loop rating_dict c dates !! S i =
  match rating_dict !! d with
  | Some rating => Some (Some rating)
  | None => fill_loop rating_dict c dates !! i
  end.
Proof.
  revert c i. induction dates as [|d0 ds IH]; intros c i Hd; [done|].
  destruct ds as [|d1 ds]; [done|]. destruct i as [|i].
  - simpl in Hd. injection Hd as ->. simpl. by destruct (rating_dict !! d).
  - change ((d0 :: d1 :: ds) !! S (S i)) with ((d1 :: ds) !! S i) in Hd.
    change (fill_loop rating_dict c (d0 :: d1 :: ds) !! S (S i)) with
      (fill_loop rating_dict
         (match rating_dict !! d0 with Some rating => Some rating | None => c end)
         (d1 :: ds) !! S i).
    rewrite (IH _ _ Hd). done.
Qed.

Lemma fill_loop_seqZ rating_dict (n : nat) (s : date) c (i : nat) :
  carried rating_dict (s - 1) c → (i < n)%nat →
  ∃ o, fill_loop rating_dict c (seqZ s (Z.of_nat n)) !! i = Some o ∧
       carried rating_dict (s + Z.of_nat i) o.
Proof.
  revert s c i. induction n as [|n IH]; intros s c i Hc Hi; [lia|].
  rewrite seqZ_cons by lia. replace (Z.pred (Z.of_nat (S n))) with (Z.of_nat n) by lia.
  pose proof (carried_step _ _ _ Hc) as Hstep. destruct i as [|i].
  - simpl. eexists. split; [done|]. by rewrite Z.add_0_r.
  - replace (s + Z.of_nat (S i)) with (Z.succ s + Z.of_nat i) by lia.
    simpl. apply IH; [|lia]. by replace (Z.succ s - 1) with s by lia.
Qed.

Lemma date_sub_days_ok (d : date) (i : Z) :
  0 < d - i ≤ Calendar._MAXORDINAL → date_sub_days d i = Ok (d - i).
Proof.
  intros [Hlo Hhi]. unfold date_sub_days.
  apply Z.ltb_lt in Hlo. apply Z.leb_le in Hhi. by rewrite Hlo, Hhi.
Qed.

Lemma mapM_Ok {A B : Type} (f : A → result B) (g : A → B) (l : list A) :
  Forall (λ x, f x = Ok (g x)) l → mapM f l = Ok (g <$> l).
Proof. induction 1 as [|x l Hx _ IH]; [done|]. simpl. by rewrite Hx, IH. Qed.

Lemma last_30_days_ok (today : date) :
  30 < today ≤ Calendar._MAXORDINAL →
  last_30_days today = Ok (seqZ (today - 30) 31).
Proof.
  intros Htoday. unfold last_30_days, range_down.
  rewrite (mapM_Ok _ (λ i, today - i)).
  - f_equal. rewrite <- list_fmap_compose.
    trans (Z.add (today - 30) <$> seqZ 0 (30 - -1)).
    + apply list_fmap_ext. intros _ k _. simpl. lia.
    + rewrite fmap_add_seqZ. f_equal; lia.
  - apply Forall_fmap, Forall_forall. intros k Hk. apply elem_of_seqZ in Hk.
    simpl. apply date_sub_days_ok. lia.
Qed.

Lemma generate_inv (today : date) rating_dict W :
  _generate_last_30_days_ratings today rating_dict = Ok W →
  ∃ dates c, last_30_days today = Ok dates ∧ W = fill_loop rating_dict c dates.
Proof.
  unfold _generate_last_30_days_ratings. intros HW.
  destruct (last_30_days today) as [dates|]; [|done]. simpl in HW.
  destruct (dates !! 0%nat) as [start_date|]; [|done]. simpl in HW.
  destruct (match rating_dict !! start_date with Some _ => _ | None => _ end)
    as [c|]; [|done].
  simpl in HW. injection HW as <-. eauto.
Qed.

Lemma generate_ok (today : date) rating_dict :
  30 < today ≤ Calendar._MAXORDINAL →
  ∃ c, carried rating_dict (today - 31) c ∧
       _generate_last_30_days_ratings today rating_dict =
       Ok (fill_loop rating_dict c (seqZ (today - 30) 31)).
Proof.
  intros Htoday. unfold _generate_last_30_days_ratings.
  rewrite (last_30_days_ok _ Htoday). cbn [mbind result_bind].
  rewrite (lookup_seqZ_lt _ _ 0) by lia. rewrite Z.add_0_r. cbn [from_option mbind result_bind].
  destruct (get_first_rating_before_date_ok rating_dict (today - 30)) as (c & Hc & Hspec).
  apply most_recent_before_carried in Hspec.
  replace (today - 30 - 1) with (today - 31) in Hspec by lia.
  exists c. split; [done|].
  destruct (rating_dict !! (today - 30)) as [r|] eqn:Hstart; cbn [mbind result_bind].
  - f_equal. rewrite seqZ_cons by lia. by eapply fill_loop_head_known.
  - by rewrite Hc.
Qed.

(** Every entry of the window is the rating in force on its day. *)
Lemma generate_entry (today : date) rating_dict :
  30 < today ≤ Calendar._MAXORDINAL →
  ∃ W, _generate_last_30_days_ratings today rating_dict = Ok W ∧
       length W = 31%nat ∧
       ∀ i, (i < 31)%nat →
            ∃ o, W !! i = Some o ∧ carried rating_dict (today - 30 + Z.of_nat i) o.
Proof.
  intros Htoday. destruct (generate_ok today rating_dict Htoday) as (c & Hc & ->).
  eexists. split; [done|]. split.
  - by rewrite length_fill_loop, length_seqZ.
  - intros i Hi. apply (fill_loop_seqZ _ 31); [|done].
    by replace (today - 30 - 1) with (today - 31) by lia.
Qed.
End Timeline.

Section Build.
Import Calendar.

Lemma valid_ymd_fits_c_int year month day :
  valid_ymd year month day = true →
  fits_c_int year && fits_c_int month && fits_c_int day = true.
Proof.
  intros Hv. pose proof Hv as (Hy & Hm & Hd)%CalendarFacts.valid_ymd_spec.
  pose proof (CalendarFacts.days_in_month_bounds year month Hm).
  unfold fits_c_int, MINYEAR, MAXYEAR in *. rewrite !andb_true_iff, !Z.leb_le. lia.
Qed.

Lemma datetime_date_valid year month day :
  valid_ymd year month day = true →
  datetime_date year month day = Ok (_ymd2ord year month day).
Proof.
  intros Hv. unfold datetime_date. by rewrite (valid_ymd_fits_c_int _ _ _ Hv), Hv.
Qed.

Lemma datetime_date_invalid year month day :
  valid_ymd year month day = false →
  datetime_date year month day = Raise (date_error year month day).
Proof.
  intros Hv. unfold datetime_date, date_error. rewrite Hv.
  by destruct (fits_c_int year && fits_c_int month && fits_c_int day).
Qed.

Lemma date_error_cases year month day :
  date_error year month day = ValueError ∨ date_error year month day = OverflowError.
Proof. unfold date_error. destruct (_ && _); [by left | by right]. Qed.

Lemma build_loop_cons_ok T0 year month day rating rest :
  valid_ymd year (month + 1) day = true →
  build_loop T0 ([year; month; day; rating] :: rest) =
  build_loop (<[_ymd2ord year (month + 1) day := rating]> T0) rest.
Proof. intros Hv. simpl. by rewrite datetime_date_valid. Qed.

Lemma build_loop_well_formed (T0 : gmap Z Z) h :
  Forall well_formed h → ∃ T, build_loop T0 h = Ok T.
Proof.
  intros Hwf. revert T0. induction Hwf as [|p h (y & m & d & r & -> & Hv) _ IH]; intros T0.
  - by exists T0.
  - rewrite build_loop_cons_ok by done. apply IH.
Qed.

Lemma build_loop_raises (T0 : gmap Z Z) h e :
  build_loop T0 h = Raise e →
  (e = ValueError ∨ e = OverflowError) ∧ Exists (λ p, ¬ well_formed p) h.
Proof.
  revert T0. induction h as [|p h IH]; intros T0; [done|].
  destruct p as [|y [|m [|d [|r [|]]]]];
    try (intros [= <-]; split; [by left|]; left; by intros (? & ? & ? & ? & ? & _)).
  destruct (valid_ymd y (m + 1) d) eqn:Hv.
  - rewrite build_loop_cons_ok by done. intros Hr.
    destruct (IH _ Hr) as [He Hex]. split; [done|]. by right.
  - simpl. rewrite datetime_date_invalid by done. intros [= <-].
    split; [apply date_error_cases|]. left.
    intros (y' & m' & d' & r' & [= -> -> -> ->] & Hv'). congruence.
Qed.

Lemma build_loop_not_Ok (T0 T : gmap Z Z) h :
  Exists (λ p, ¬ well_formed p) h → build_loop T0 h ≠ Ok T.
Proof.
  intros Hex. revert T0. induction Hex as [p h Hp | p h _ IH]; intros T0 Hb.
  - destruct p as [|y [|m [|d [|r [|]]]]]; try done.
    simpl in Hb. destruct (valid_ymd y (m + 1) d) eqn:Hv.
    + apply Hp. by exists y, m, d, r.
    + by rewrite datetime_date_invalid in Hb.
  - destruct p as [|y [|m [|d [|r [|]]]]]; try done.
    simpl in Hb. destruct (datetime_date y (m + 1) d); [|done]. simpl in Hb.
    by eapply IH.
Qed.

Lemma build_loop_malformed (T0 : gmap Z Z) h :
  Exists (λ p, ¬ well_formed p) h →
  ∃ e, build_loop T0 h = Raise e ∧ (e = ValueError ∨ e = OverflowError).
Proof.
  intros Hex. destruct (build_loop T0 h) as [T|e] eqn:Hb.
  - by destruct (build_loop_not_Ok _ _ _ Hex Hb).
  - exists e. split; [done|]. by destruct (build_loop_raises _ _ _ Hb).
Qed.

(** The loop ends at the first observation that is no date, with the
    exception of the date constructor. *)
Lemma build_loop_first_malformed (T0 : gmap Z Z) h1 h2 y m d r :
  Forall well_formed h1 →
  valid_ymd y (m + 1) d = false →
  build_loop T0 (h1 ++ [y; m; d; r] :: h2) = Raise (date_error y (m + 1) d).
Proof.
  intros Hwf Hv. revert T0.
  induction Hwf as [|p h1 (y' & m' & d' & r' & -> & Hv') _ IH]; intros T0.
  - simpl. by rewrite datetime_date_invalid.
  - rewrite <- app_comm_cons, build_loop_cons_ok by done. apply IH.
Qed.

Lemma build_loop_app (T0 T : gmap Z Z) h1 h2 :
  build_loop T0 (h1 ++ h2) = Ok T →
  ∃ T1, build_loop T0 h1 = Ok T1 ∧ build_loop T1 h2 = Ok T.
Proof.
  revert T0. induction h1 as [|p h1 IH]; intros T0 Hb; [by exists T0|].
  destruct p as [|y [|m [|d [|r [|]]]]]; try done.
  simpl in *. destruct (datetime_date y (m + 1) d); [|done]. simpl in *. eauto.
Qed.

(** An entry survives the rest of the loop when no later point has its date. *)
Lemma build_loop_keeps (T0 T : gmap Z Z) h (k : date) (r : Z) :
  build_loop T0 h = Ok T → T0 !! k = Some r →
  (∀ y m d r', [y; m; d; r'] ∈ h → valid_ymd y (m + 1) d = true →
               _ymd2ord y (m + 1) d ≠ k) →
  T !! k = Some r.
Proof.
  revert T0. induction h as [|p h IH]; intros T0 Hb Hk Hlater.
  - simpl in Hb. by injection Hb as <-.
  - destruct p as [|y [|m [|d [|r' [|]]]]]; try done.
    simpl in Hb. destruct (valid_ymd y (m + 1) d) eqn:Hv.
    + rewrite datetime_date_valid in Hb by done. simpl in Hb.
      apply (IH _ Hb).
      * rewrite lookup_insert_ne; [done|]. apply (Hlater y m d r'); [left|done].
      * intros y1 m1 d1 r1 Hin. apply (Hlater y1 m1 d1 r1). by right.
    + by rewrite datetime_date_invalid in Hb.
Qed.

(** Every entry of the result was in the initial mapping or comes from a point. *)
Lemma build_loop_origin (T0 T : gmap Z Z) h (k : date) (r : Z) :
  build_loop T0 h = Ok T → T !! k = Some r →
  T0 !! k = Some r ∨
  ∃ y m d, [y; m; d; r] ∈ h ∧ valid_ymd y (m + 1) d = true ∧ k = _ymd2ord y (m + 1) d.
Proof.
  revert T0. induction h as [|p h IH]; intros T0 Hb Hk.
  - simpl in Hb. injection Hb as <-. by left.
  - destruct p as [|y [|m [|d [|r' [|]]]]]; try done.
    simpl in Hb. destruct (valid_ymd y (m + 1) d) eqn:Hv.
    + rewrite datetime_date_valid in Hb by done. simpl in Hb.
      destruct (IH _ Hb Hk) as [Hin | (y1 & m1 & d1 & Hin & Hv1 & ->)].
      * destruct (decide (_ymd2ord y (m + 1) d = k)) as [<-|Hne].
        -- rewrite lookup_insert_eq in Hin. injection Hin as ->.
           right. exists y, m, d. split_and!; [left|done..].
        -- rewrite lookup_insert_ne in Hin by done. by left.
      * right. exists y1, m1, d1. split_and!; [by right|done..].
    + by rewrite datetime_date_invalid in Hb.
Qed.
End Build.


(** ** The leaderboard and the batch *)

Section Leaderboard.
Implicit Types (w : world) (players : list player).

Lemma top_players_listed w count players :
  get_leaderboard w (leaderboard_url count) = Json (Some {| users := Some (Some players) |}) →
  players ≠ [] →
  _get_top_players_usernames w count = Ok (omap truthy_username players).
Proof.
  intros Hresp Hne. unfold _get_top_players_usernames, _fetch_json.
  rewrite Hresp. simpl. by destruct players.
Qed.

Lemma truthy_username_Some (p : player) u :
  truthy_username p = Some u ↔ player_username p = Some u ∧ u ≠ "".
Proof.
  unfold truthy_username. destruct (player_username p) as [v|].
  - destruct (decide (v = "")) as [->|Hv]; split.
    + done.
    + by intros [[= <-] Hu].
    + by intros [= <-].
    + by intros [[= <-] _].
  - split; [done | by intros [? _]].
Qed.

Lemma truthy_username_None (p : player) : truthy_username p = None ↔ blank p.
Proof.
  unfold truthy_username, blank. destruct (player_username p) as [v|].
  - destruct (decide (v = "")) as [->|Hv]; split.
    + by right.
    + done.
    + done.
    + intros [?|[= ->]]; done.
  - split; [by left | done].
Qed.

Lemma omap_truthy_cons (p : player) players :
  omap truthy_username (p :: players) =
  match truthy_username p with
  | Some u => u :: omap truthy_username players
  | None => omap truthy_username players
  end.
Proof. done. Qed.

Lemma truthy_usernames_filter players :
  Some <$> omap truthy_username players =
  filter (λ o, o ≠ None ∧ o ≠ Some "") (player_username <$> players).
Proof.
  induction players as [|p players IH]; [done|].
  rewrite omap_truthy_cons, fmap_cons, filter_cons.
  destruct (truthy_username p) as [u|] eqn:Hp.
  - apply truthy_username_Some in Hp as [Hp Hu]. rewrite Hp.
    rewrite decide_True by (split; congruence). by rewrite fmap_cons, IH.
  - apply truthy_username_None in Hp. rewrite decide_False; [done|].
    intros [H1 H2]. by destruct Hp.
Qed.

Lemma truthy_usernames_length players :
  (length (omap truthy_username players) + length (filter blank players))%nat =
  length players.
Proof.
  induction players as [|p players IH]; [done|].
  rewrite omap_truthy_cons, filter_cons.
  destruct (truthy_username p) as [u|] eqn:Hp.
  - rewrite decide_False.
    + simpl. by rewrite IH.
    + rewrite <- truthy_username_None. congruence.
  - rewrite decide_True by (by apply truthy_username_None).
    simpl. rewrite <- IH. lia.
Qed.
End Leaderboard.



Section Batch.
Local Open Scope nat_scope.

Lemma collect_loop_handled (data_rows : list row) (completed : list future) :
  Forall (λ f, handled f.2) completed →
  collect_loop data_rows completed = Ok (data_rows ++ (row_of <$> completed)).
Proof.
  intros Hall. revert data_rows.
  induction Hall as [|[u outcome] completed Hf _ IH]; intros data_rows; simpl.
  - by rewrite app_nil_r.
  - destruct outcome as [ratings|e]; simpl in *.
    + rewrite IH. by rewrite <- app_assoc.
    + rewrite Hf. simpl. rewrite IH. by rewrite <- app_assoc.
Qed.

Lemma collect_loop_unhandled (data_rows : list row) (completed : list future) :
  Exists (λ f, ¬ handled f.2) completed →
  ∃ e, collect_loop data_rows completed = Raise e ∧
       is_ChessRankingsServiceError e = false.
Proof.
  intros Hex. revert data_rows.
  induction completed as [|[u outcome] completed IH]; intros data_rows.
  { by apply Exists_nil in Hex. }
  apply Exists_cons in Hex. simpl.
  destruct outcome as [ratings|e]; simpl in *.
  - destruct Hex as [Hex|Hex]; [by destruct Hex | by apply IH].
  - destruct (is_ChessRankingsServiceError e) eqn:He; simpl.
    + destruct Hex as [Hex|Hex]; [by destruct Hex | by apply IH].
    + by exists e.
Qed.

Lemma omap_lookup_seq {A : Type} (p l : list A) :
  omap (λ i, (p ++ l) !! i) (seq (length p) (length l)) = l.
Proof.
  revert p. induction l as [|x l IH]; intros p; [done|].
  simpl. rewrite list_lookup_middle by done. f_equal.
  specialize (IH (p ++ [x])). rewrite length_app, <- app_assoc in IH. simpl in IH.
  by rewrite Nat.add_1_r in IH.
Qed.

Lemma as_completed_Permutation schedule (futures : list future) :
  is_completion_order schedule futures → as_completed schedule futures ≡ₚ futures.
Proof.
  unfold is_completion_order, as_completed. intros ->.
  pose proof (omap_lookup_seq [] futures) as Hall. simpl in Hall. by rewrite Hall.
Qed.

Section sort.
Context {A : Type} (key : A → nat).

Lemma insert_by_key_Permutation x l : insert_by_key key x l ≡ₚ x :: l.
Proof.
  induction l as [|y l IH]; simpl; [done|].
  destruct (key x <=? key y); [done|]. by rewrite IH, Permutation_swap.
Qed.

Lemma sort_by_key_Permutation l : sort_by_key key l ≡ₚ l.
Proof.
  induction l as [|x l IH]; simpl; [done|].
  by rewrite insert_by_key_Permutation, IH.
Qed.

Lemma insert_by_key_sorted x l :
  StronglySorted (key_le key) l → StronglySorted (key_le key) (insert_by_key key x l).
Proof.
  induction 1 as [|y l Hl IH Hy]; simpl.
  - repeat constructor.
  - destruct (Nat.leb_spec (key x) (key y)) as [Hle|Hgt].
    + constructor; [by constructor|]. constructor; [done|].
      eapply Forall_impl; [done|]. unfold key_le. intros z Hz. lia.
    + constructor; [done|]. rewrite insert_by_key_Permutation.
      constructor; [unfold key_le; lia | done].
Qed.

Lemma sort_by_key_sorted l : StronglySorted (key_le key) (sort_by_key key l).
Proof.
  induction l as [|x l IH]; simpl; [constructor | by apply insert_by_key_sorted].
Qed.

(** A list whose keys grow with the position is what sorting any of its
    rearrangements gives, provided equal keys mean equal elements. *)
Lemma sort_by_key_unique l target :
  l ≡ₚ target →
  StronglySorted (key_le key) target →
  (∀ a b, a ∈ target → b ∈ target → key a = key b → a = b) →
  sort_by_key key l = target.
Proof.
  intros Hperm Hsorted Hinj.
  apply (StronglySorted_unique_strong (key_le key));
    [|apply sort_by_key_sorted|done|by rewrite sort_by_key_Permutation].
  intros a b Ha Hb Hab Hba. rewrite sort_by_key_Permutation, Hperm in Ha.
  apply Hinj; [done..|]. unfold key_le in *. lia.
Qed.
End sort.

Lemma username_order_snoc usernames u :
  username_order (usernames ++ [u]) = <[u := length usernames]> (username_order usernames).
Proof.
  unfold username_order. rewrite imap_app, foldl_app. simpl.
  by rewrite Nat.add_0_r.
Qed.

Lemma username_order_lookup usernames i u :
  NoDup usernames → usernames !! i = Some u →
  username_order usernames !! u = Some i.
Proof.
  induction usernames as [|v usernames IH] using rev_ind; [done|].
  rewrite NoDup_app. intros (Hnd & Hnotin & _) Hi. rewrite username_order_snoc.
  destruct (decide (i < length usernames)) as [Hlt|Hge].
  - rewrite lookup_app_l in Hi by done.
    rewrite lookup_insert_ne; [by apply IH|].
    intros ->. eapply Hnotin; [by eapply list_elem_of_lookup_2 | left].
  - apply lookup_lt_Some in Hi as Hlen. rewrite length_app in Hlen. simpl in Hlen.
    assert (i = length usernames) as -> by lia.
    rewrite list_lookup_middle in Hi by done. injection Hi as ->.
    by rewrite lookup_insert_eq.
Qed.

Lemma StronglySorted_lookup {A : Type} (R : relation A) (l : list A) :
  (∀ i j x y, l !! i = Some x → l !! j = Some y → i < j → R x y) →
  StronglySorted R l.
Proof.
  induction l as [|x l IH]; intros Hl; constructor.
  - apply IH. intros i j a b Hi Hj Hij. apply (Hl (S i) (S j)); [done..|lia].
  - apply Forall_lookup. intros j y Hj. apply (Hl 0 (S j)); [done..|lia].
Qed.

(** With distinct usernames, sorting any rearrangement of the rows gives
    them in the order of the usernames. *)
Lemma sort_rows_restores (usernames : list string) (ratings : string → list (option Z))
    (data_rows : list row) :
  NoDup usernames →
  data_rows ≡ₚ (λ u, (u, ratings u)) <$> usernames →
  sort_rows usernames data_rows = (λ u, (u, ratings u)) <$> usernames.
Proof.
  intros Hnd Hperm. unfold sort_rows. apply sort_by_key_unique; [done|..].
  - apply StronglySorted_lookup. intros i j x y Hi Hj Hij.
    apply list_lookup_fmap_Some in Hi as (u & -> & Hu).
    apply list_lookup_fmap_Some in Hj as (v & -> & Hv). unfold key_le. simpl.
    rewrite (username_order_lookup _ _ _ Hnd Hu), (username_order_lookup _ _ _ Hnd Hv).
    simpl. lia.
  - intros a b Ha Hb. apply list_elem_of_fmap in Ha as (u & -> & Hu).
    apply list_elem_of_fmap in Hb as (v & -> & Hv). simpl.
    apply list_elem_of_lookup in Hu as [i Hi]. apply list_elem_of_lookup in Hv as [j Hj].
    rewrite (username_order_lookup _ _ _ Hnd Hi), (username_order_lookup _ _ _ Hnd Hj).
    simpl. intros ->. congruence.
Qed.
End Batch.

Section BulkExport.
Implicit Types (w : world) (usernames : list string).

Lemma generate_dispatched w schedule usernames :
  _get_top_players_usernames w 50 = Ok usernames →
  usernames ≠ [] →
  30 < now_date w ≤ Calendar._MAXORDINAL →
  generate_rating_csv_for_top_50_classical_players w schedule =
  (usernames,
   data_rows ← collect_loop [] (as_completed schedule (submit_all w usernames));
   Ok (sort_rows usernames data_rows)).
Proof.
  intros Htop Hne Hclock. unfold generate_rating_csv_for_top_50_classical_players.
  rewrite Htop, (last_30_days_ok _ Hclock).
  destruct (Z.leb_spec (Z.min 10 (Z.of_nat (length usernames))) 0) as [Hle|]; [|done].
  destruct usernames; [done|]. simpl in Hle. lia.
Qed.

Lemma row_of_submit_all w usernames :
  row_of <$> submit_all w usernames =
  (λ u, (u, match _get_last_30_days_classical_ratings_for_player w u with
            | Ok player_ratings => player_ratings
            | Raise _ => replicate 31 None
            end)) <$> usernames.
Proof. unfold submit_all. by rewrite <- list_fmap_compose. Qed.

Lemma handled_submit_all w usernames :
  Forall (λ username, handled (_get_last_30_days_classical_ratings_for_player w username))
    usernames ↔
  Forall (λ f : future, handled f.2) (submit_all w usernames).
Proof. unfold submit_all. by rewrite Forall_fmap. Qed.

(** When every failure is one of the service's own errors, the batch
    returns the sorted rows of the tasks. *)
Lemma generate_handled w schedule usernames :
  _get_top_players_usernames w 50 = Ok usernames →
  usernames ≠ [] →
  30 < now_date w ≤ Calendar._MAXORDINAL →
  is_completion_order schedule (submit_all w usernames) →
  Forall (λ username, handled (_get_last_30_days_classical_ratings_for_player w username))
    usernames →
  ∃ completed,
    completed ≡ₚ submit_all w usernames ∧
    generate_rating_csv_for_top_50_classical_players w schedule =
    (usernames, Ok (sort_rows usernames (row_of <$> completed))).
Proof.
  intros Htop Hne Hclock Hsched Hall.
  pose proof (as_completed_Permutation _ _ Hsched) as Hperm.
  exists (as_completed schedule (submit_all w usernames)). split; [done|].
  rewrite (generate_dispatched _ _ _ Htop Hne Hclock).
  rewrite collect_loop_handled; [done|].
  rewrite Hperm. by apply handled_submit_all.
Qed.

Lemma collect_loop_inv (data_rows rows : list row) (completed : list future) :
  collect_loop data_rows completed = Ok rows →
  rows = data_rows ++ (row_of <$> completed).
Proof.
  revert data_rows. induction completed as [|[u outcome] completed IH]; intros data_rows.
  - simpl. intros [= <-]. by rewrite app_nil_r.
  - simpl. destruct outcome as [ratings|e]; simpl.
    + intros ->%IH. by rewrite <- app_assoc.
    + destruct (is_ChessRankingsServiceError e); simpl; [|done].
      intros ->%IH. by rewrite <- app_assoc.
Qed.

(** The rows of a batch that completed are the sorted rows of the tasks. *)
Lemma generate_completed_inv w schedule usernames data_rows :
  _get_top_players_usernames w 50 = Ok usernames →
  (generate_rating_csv_for_top_50_classical_players w schedule).2 = Ok data_rows →
  data_rows =
  sort_rows usernames (row_of <$> as_completed schedule (submit_all w usernames)).
Proof.
  intros Htop. unfold generate_rating_csv_for_top_50_classical_players. rewrite Htop.
  destruct (last_30_days (now_date w)); [|done].
  destruct (Z.min 10 (Z.of_nat (length usernames)) <=? 0); [done|]. simpl.
  destruct (collect_loop _ _) as [rows|] eqn:Hrows; [|done].
  simpl. intros [= <-]. by rewrite (collect_loop_inv _ _ _ Hrows).
Qed.
End BulkExport.

(** * The specified properties *)

(** C1. Forward-fill: in a window produced by the reconstruction, at every
    position [i > 0] whose calendar date has no observation in the timeline,
    the rating equals the rating at position [i - 1]. *)
Theorem forward_fill_invariant (today : date) (rating_dict : gmap Z Z)
    (W : list (option Z)) (dates : list date) (i : nat) (d : date) :
  _generate_last_30_days_ratings today rating_dict = Ok W →
  last_30_days today = Ok dates →
  (0 < i)%nat →
  dates !! i = Some d →
  rating_dict !! d = None →
  is_Some (W !! i) ∧ W !! i = W !! (i - 1)%nat.
Proof.
  intros HW Hdates Hi Hd Hnone.
  destruct (generate_inv _ _ _ HW) as (dates' & c & Hdates' & ->).
  rewrite Hdates in Hdates'. injection Hdates' as <-.
  destruct i as [|i]; [lia|]. split.
  - apply lookup_lt_is_Some. rewrite length_fill_loop. by eapply lookup_lt_Some.
  - rewrite (fill_loop_lookup_S _ _ _ _ _ Hd), Hnone. f_equal. lia.
Qed.

Lemma forward_fill_invariant_witness :
  let rating_dict : gmap Z Z := {[ 738900 := 1500; 738905 := 1550 ]} in
  let W := replicate 23 None ++ replicate 5 (Some 1500) ++ replicate 3 (Some 1550) in
  _generate_last_30_days_ratings 738907 rating_dict = Ok W ∧
  last_30_days 738907 = Ok (seqZ 738877 31) ∧
  seqZ 738877 31 !! 25%nat = Some 738902 ∧
  rating_dict !! 738902 = None ∧
  W !! 25%nat = W !! 24%nat.
Proof.
  intros rating_dict W.
  assert (H1 : _generate_last_30_days_ratings 738907 rating_dict = Ok W) by (by vm_compute).
  assert (H2 : last_30_days 738907 = Ok (seqZ 738877 31)) by (by vm_compute).
  assert (H3 : seqZ 738877 31 !! 25%nat = Some 738902) by (by vm_compute).
  assert (H4 : rating_dict !! 738902 = None) by (by vm_compute).
  split_and!; [done..|].
  apply (forward_fill_invariant 738907 rating_dict W _ 25 738902 H1 H2 ltac:(lia) H3 H4).
Defined.

(** C2. Window completeness: for a clock date from 0001-01-31 on (so that
    the day 30 days earlier exists in the calendar), the reconstruction
    returns exactly 31 entries, one for each of the consecutive days
    [today - 30], ..., [today], in this order; entry [i] is the rating in
    force on day [today - 30 + i]; and consecutive positions hold consecutive
    calendar days, whatever month or year boundary lies between them. *)
Theorem window_completeness (today : date) (rating_dict : gmap Z Z) :
  30 < today ≤ Calendar._MAXORDINAL →
  ∃ W dates,
    _generate_last_30_days_ratings today rating_dict = Ok W ∧
    last_30_days today = Ok dates ∧
    length W = 31%nat ∧ length dates = 31%nat ∧
    (∀ i, (i < 31)%nat → dates !! i = Some (today - 30 + Z.of_nat i)) ∧
    dates !! 30%nat = Some today ∧
    (∀ i, (i < 31)%nat →
          ∃ o, W !! i = Some o ∧ carried rating_dict (today - 30 + Z.of_nat i) o) ∧
    (∀ i year month day,
        (S i < 31)%nat →
        Calendar.valid_ymd year month day = true →
        dates !! i = Some (Calendar._ymd2ord year month day) →
        let '(year', month', day') := Calendar.next_day (year, month, day) in
        Calendar.valid_ymd year' month' day' = true ∧
        dates !! S i = Some (Calendar._ymd2ord year' month' day')).
Proof.
  intros Htoday.
  destruct (generate_entry today rating_dict Htoday) as (W & HW & Hlen & Hentry).
  assert (Hlookup : ∀ i, (i < 31)%nat →
            seqZ (today - 30) 31 !! i = Some (today - 30 + Z.of_nat i))
    by (intros i Hi; apply lookup_seqZ_lt; lia).
  exists W, (seqZ (today - 30) 31).
  split_and!; [done|by apply last_30_days_ok|done|by rewrite length_seqZ|done| | done |].
  - rewrite (Hlookup 30%nat) by lia. f_equal. lia.
  - intros i year month day Hi Hv Hdate.
    rewrite Hlookup in Hdate by lia. injection Hdate as Hdate.
    pose proof (CalendarFacts.ymd2ord_next_day year month day Hv) as Hnext.
    pose proof (CalendarFacts.next_day_valid year month day Hv) as Hvalid.
    destruct (Calendar.next_day (year, month, day)) as [[year' month'] day'].
    split; [apply Hvalid; lia|].
    rewrite Hlookup by lia. f_equal. lia.
Qed.

Lemma window_completeness_witness :
  30 < 738907 ≤ Calendar._MAXORDINAL ∧
  ∃ W dates,
    _generate_last_30_days_ratings 738907 {[ 738900 := 1500; 738905 := 1550 ]} = Ok W ∧
    last_30_days 738907 = Ok dates ∧
    length W = 31%nat ∧ length dates = 31%nat.
Proof.
  assert (H : 30 < 738907 ≤ Calendar._MAXORDINAL) by (by vm_compute).
  split; [done|].
  destruct (window_completeness 738907 {[ 738900 := 1500; 738905 := 1550 ]} H)
    as (W & dates & HW & Hdates & HlenW & Hlen & _).
  exists W, dates. exact (conj HW (conj Hdates (conj HlenW Hlen))).
Defined.

(** C3. For a clock date from 0001-01-31 on, an entry of the 31-day window is
    absent exactly when the timeline has no observation on or before the
    entry's date; for the empty timeline all 31 entries are absent. *)
Theorem absent_iff_no_observation_on_or_before (today : date) (rating_dict : gmap Z Z) :
  30 < today ≤ Calendar._MAXORDINAL →
  ∃ W,
    _generate_last_30_days_ratings today rating_dict = Ok W ∧
    length W = 31%nat ∧
    (∀ i, (i < 31)%nat →
          (W !! i = Some None ↔
           ∀ d, is_Some (rating_dict !! d) → today - 30 + Z.of_nat i < d)) ∧
    (rating_dict = ∅ → W = replicate 31 None).
Proof.
  intros Htoday.
  destruct (generate_entry today rating_dict Htoday) as (W & HW & Hlen & Hentry).
  assert (Hiff : ∀ i, (i < 31)%nat →
            (W !! i = Some None ↔
             ∀ d, is_Some (rating_dict !! d) → today - 30 + Z.of_nat i < d)).
  { intros i Hi. destruct (Hentry i Hi) as (o & Ho & Hcar). rewrite Ho. split.
    - intros [= ->]. exact Hcar.
    - intros Hnone. destruct o as [r|]; [|done].
      destruct Hcar as (d & Hd & Hle & _). specialize (Hnone d (mk_is_Some _ _ Hd)). lia. }
  exists W. split_and!; [done..|].
  intros ->. apply list_eq. intros i.
  destruct (decide (i < 31)%nat) as [Hi|Hi].
  - rewrite lookup_replicate_2 by done. apply Hiff; [done|].
    intros d [r Hr]. by rewrite lookup_empty in Hr.
  - rewrite !lookup_ge_None_2; [done|rewrite length_replicate; lia|lia].
Qed.

Lemma absent_iff_no_observation_on_or_before_witness :
  30 < 738907 ≤ Calendar._MAXORDINAL ∧
  ∃ W, _generate_last_30_days_ratings 738907 ∅ = Ok W ∧ W = replicate 31 None.
Proof.
  assert (H : 30 < 738907 ≤ Calendar._MAXORDINAL) by (by vm_compute).
  split; [done|].
  destruct (absent_iff_no_observation_on_or_before 738907 ∅ H) as (W & HW & _ & _ & Hempty).
  exists W. exact (conj HW (Hempty eq_refl)).
Defined.

(** C4. The most-recent-before lookup always returns; a rating it returns is
    the one stored at the greatest date of the timeline that is strictly
    less than the target date, and it returns absent exactly when the
    timeline has no date strictly less than the target date. *)
Theorem get_first_rating_before_date_correct (rating_dict : gmap Z Z) (target_date : date) :
  ∃ res,
    _get_first_rating_before_date rating_dict target_date = Ok res ∧
    match res with
    | Some rating =>
        ∃ d, rating_dict !! d = Some rating ∧ d < target_date ∧
             ∀ d', is_Some (rating_dict !! d') → d' < target_date → d' ≤ d
    | None => ∀ d', is_Some (rating_dict !! d') → target_date ≤ d'
    end ∧
    (is_Some res ↔ ∃ d, is_Some (rating_dict !! d) ∧ d < target_date).
Proof.
  destruct (get_first_rating_before_date_ok rating_dict target_date) as (res & Hres & Hspec).
  exists res. split_and!; [done..|].
  destruct res as [r|]; simpl in Hspec.
  - destruct Hspec as (d & Hd & Hlt & _). split; [|done]. intros _. by exists d.
  - split; [by intros []|]. intros (d & Hd & Hlt). specialize (Hspec d Hd). lia.
Qed.

(** C5, as the code has it. With the leaderboard read, the clock in range
    and the tasks collected in any completion order: when every failing task
    fails with an error of the service's own hierarchy ([APIError],
    [RatingHistoryNotFoundError], [ClassicalRatingNotFoundError]), the batch
    completes and each failing player's row is 31 absent entries, next to the
    rows of the other players; an exception outside that hierarchy (the
    [ValueError] of a malformed observation) is not caught and ends the
    batch. *)
Theorem batch_isolates_service_errors (w : world) (schedule : list nat)
    (usernames : list string) :
  _get_top_players_usernames w 50 = Ok usernames →
  usernames ≠ [] →
  30 < now_date w ≤ Calendar._MAXORDINAL →
  is_completion_order schedule (submit_all w usernames) →
  (Forall (λ username, handled (_get_last_30_days_classical_ratings_for_player w username))
     usernames →
   ∃ data_rows,
     generate_rating_csv_for_top_50_classical_players w schedule = (usernames, Ok data_rows) ∧
     data_rows ≡ₚ row_of <$> submit_all w usernames ∧
     ∀ username, username ∈ usernames →
       match _get_last_30_days_classical_ratings_for_player w username with
       | Ok player_ratings => (username, player_ratings) ∈ data_rows
       | Raise _ => (username, replicate 31 None) ∈ data_rows
       end) ∧
  (Exists (λ username, ¬ handled (_get_last_30_days_classical_ratings_for_player w username))
     usernames →
   ∃ e,
     generate_rating_csv_for_top_50_classical_players w schedule = (usernames, Raise e) ∧
     is_ChessRankingsServiceError e = false).
Proof.
  intros Htop Hne Hclock Hsched. split.
  - intros Hall.
    destruct (generate_handled _ _ _ Htop Hne Hclock Hsched Hall) as (completed & Hperm & ->).
    assert (Hrows : sort_rows usernames (row_of <$> completed)
                    ≡ₚ row_of <$> submit_all w usernames).
    { unfold sort_rows. by rewrite sort_by_key_Permutation, Hperm. }
    eexists. split_and!; [done..|].
    intros username Hin.
    assert (row_of (username, _get_last_30_days_classical_ratings_for_player w username)
            ∈ sort_rows usernames (row_of <$> completed)) as Hrow.
    { rewrite Hrows. apply list_elem_of_fmap_2. unfold submit_all.
      by apply (list_elem_of_fmap_2
                  (λ u, (u, _get_last_30_days_classical_ratings_for_player w u))). }
    unfold row_of in Hrow. simpl in Hrow.
    by destruct (_get_last_30_days_classical_ratings_for_player w username).
  - intros Hex. rewrite (generate_dispatched _ _ _ Htop Hne Hclock).
    pose proof (as_completed_Permutation _ _ Hsched) as Hperm.
    destruct (collect_loop_unhandled [] (as_completed schedule (submit_all w usernames)))
      as (e & -> & He).
    + rewrite Hperm. unfold submit_all. by rewrite Exists_fmap.
    + by exists e.
Qed.

Lemma batch_isolates_service_errors_witness :
  let w := sample_world [Some "alice"; Some "bob"; Some "dave"; Some "erin"] in
  let usernames := ["alice"; "bob"; "dave"; "erin"] in
  _get_top_players_usernames w 50 = Ok usernames ∧
  usernames ≠ [] ∧
  30 < now_date w ≤ Calendar._MAXORDINAL ∧
  is_completion_order [2; 1; 0; 3]%nat (submit_all w usernames) ∧
  Forall (λ username, handled (_get_last_30_days_classical_ratings_for_player w username))
    usernames ∧
  ∃ data_rows,
    generate_rating_csv_for_top_50_classical_players w [2; 1; 0; 3]%nat
    = (usernames, Ok data_rows) ∧
    ("dave", replicate 31 None) ∈ data_rows.
Proof.
  intros w usernames.
  assert (H1 : _get_top_players_usernames w 50 = Ok usernames) by (vm_compute; reflexivity).
  assert (H2 : usernames ≠ []) by discriminate.
  assert (H3 : 30 < now_date w ≤ Calendar._MAXORDINAL) by (vm_compute; split; [reflexivity | discriminate]).
  assert (H4 : is_completion_order [2; 1; 0; 3]%nat (submit_all w usernames))
    by (unfold is_completion_order; compute_done).
  assert (H5 : Forall (λ username,
                 handled (_get_last_30_days_classical_ratings_for_player w username))
                 usernames)
    by (repeat (apply Forall_cons_2; [vm_compute; first [exact I | reflexivity] |]);
        apply Forall_nil_2).
  refine (conj H1 (conj H2 (conj H3 (conj H4 (conj H5 _))))).
  destruct (proj1 (batch_isolates_service_errors w _ usernames H1 H2 H3 H4) H5)
    as (data_rows & Hgen & _ & Hrows).
  exists data_rows. split; [exact Hgen|].
  apply (Hrows "dave"). right. right. left.
Defined.

(** C5, as stated, fails: carol's history holds the observation 2024-02-30,
    her task raises [ValueError], and the whole batch ends with it although
    alice's task succeeded. *)
Lemma batch_isolation_counterexample :
  let w := sample_world [Some "alice"; Some "carol"] in
  _get_top_players_usernames w 50 = Ok ["alice"; "carol"] ∧
  _get_last_30_days_classical_ratings_for_player w "carol" = Raise ValueError ∧
  generate_rating_csv_for_top_50_classical_players w [0; 1]%nat
  = (["alice"; "carol"], Raise ValueError) ∧
  ¬ every_failure_isolated w [0; 1]%nat.
Proof.
  intros w.
  assert (H1 : _get_top_players_usernames w 50 = Ok ["alice"; "carol"])
    by (vm_compute; reflexivity).
  assert (H2 : generate_rating_csv_for_top_50_classical_players w [0; 1]%nat
               = (["alice"; "carol"], Raise ValueError)) by (vm_compute; reflexivity).
  split_and!; [exact H1|vm_compute; reflexivity|exact H2|].
  intros Hclaim. destruct (Hclaim _ H1) as (data_rows & Hrows & _).
  - discriminate.
  - vm_compute. split; [reflexivity | discriminate].
  - unfold is_completion_order. compute_done.
  - rewrite H2 in Hrows. discriminate Hrows.
Qed.

(** C6, as the code has it. For pairwise distinct usernames read from the
    leaderboard and every completion order of the tasks: the rows of a batch
    that completes are the rows of the players in the order of the
    usernames, whatever the completion order; and the batch does complete
    when there is a username, the clock is in range and every failing task
    fails with an error of the service's own hierarchy. *)
Theorem batch_output_order (w : world) (schedule : list nat) (usernames : list string) :
  _get_top_players_usernames w 50 = Ok usernames →
  NoDup usernames →
  is_completion_order schedule (submit_all w usernames) →
  (∀ data_rows,
      (generate_rating_csv_for_top_50_classical_players w schedule).2 = Ok data_rows →
      data_rows.*1 = usernames ∧
      data_rows = row_of <$> submit_all w usernames) ∧
  (usernames ≠ [] →
   30 < now_date w ≤ Calendar._MAXORDINAL →
   Forall (λ username, handled (_get_last_30_days_classical_ratings_for_player w username))
     usernames →
   ∃ data_rows,
     generate_rating_csv_for_top_50_classical_players w schedule = (usernames, Ok data_rows)).
Proof.
  intros Htop Hnd Hsched. split.
  - intros data_rows Hrows.
    pose proof (as_completed_Permutation _ _ Hsched) as Hperm.
    rewrite (generate_completed_inv _ _ _ _ Htop Hrows).
    assert (Hsorted : sort_rows usernames
                        (row_of <$> as_completed schedule (submit_all w usernames))
                      = row_of <$> submit_all w usernames).
    { rewrite row_of_submit_all. apply sort_rows_restores; [done|].
      by rewrite Hperm, row_of_submit_all. }
    split; [|done].
    rewrite Hsorted, row_of_submit_all, <- list_fmap_compose. apply list_fmap_id.
  - intros Hne Hclock Hall.
    destruct (generate_handled _ _ _ Htop Hne Hclock Hsched Hall) as (completed & _ & ->).
    by eexists.
Qed.

Lemma batch_output_order_witness :
  let w := sample_world [Some "alice"; Some "bob"; Some "dave"; Some "erin"] in
  let usernames := ["alice"; "bob"; "dave"; "erin"] in
  _get_top_players_usernames w 50 = Ok usernames ∧
  NoDup usernames ∧
  is_completion_order [3; 0; 2; 1]%nat (submit_all w usernames) ∧
  ∃ data_rows,
    generate_rating_csv_for_top_50_classical_players w [3; 0; 2; 1]%nat
    = (usernames, Ok data_rows) ∧
    data_rows.*1 = usernames.
Proof.
  intros w usernames.
  assert (H1 : _get_top_players_usernames w 50 = Ok usernames) by (vm_compute; reflexivity).
  assert (H2 : NoDup usernames) by compute_done.
  assert (H3 : is_completion_order [3; 0; 2; 1]%nat (submit_all w usernames))
    by (unfold is_completion_order; compute_done).
  refine (conj H1 (conj H2 (conj H3 _))).
  destruct (batch_output_order w _ usernames H1 H2 H3) as [Horder Hcompletes].
  destruct Hcompletes as [data_rows Hgen].
  - discriminate.
  - vm_compute. split; [reflexivity | discriminate].
  - repeat (apply Forall_cons_2; [vm_compute; first [exact I | reflexivity] |]).
    apply Forall_nil_2.
  - exists data_rows. split; [exact Hgen|].
    apply Horder. by rewrite Hgen.
Defined.

(** C6, as stated, fails for a leaderboard that lists a username twice: the
    rows of alice, bob, alice come out as bob, alice, alice. *)
Lemma batch_output_order_counterexample :
  let w := sample_world [Some "alice"; Some "bob"; Some "alice"] in
  _get_top_players_usernames w 50 = Ok ["alice"; "bob"; "alice"] ∧
  is_completion_order [0; 1; 2]%nat (submit_all w ["alice"; "bob"; "alice"]) ∧
  (∃ data_rows,
      (generate_rating_csv_for_top_50_classical_players w [0; 1; 2]%nat).2 = Ok data_rows ∧
      data_rows.*1 = ["bob"; "alice"; "alice"]) ∧
  ¬ output_in_input_order w [0; 1; 2]%nat.
Proof.
  intros w.
  assert (H1 : _get_top_players_usernames w 50 = Ok ["alice"; "bob"; "alice"])
    by (vm_compute; reflexivity).
  assert (H2 : is_completion_order [0; 1; 2]%nat (submit_all w ["alice"; "bob"; "alice"]))
    by (unfold is_completion_order; compute_done).
  assert (H3 : ∃ data_rows,
      (generate_rating_csv_for_top_50_classical_players w [0; 1; 2]%nat).2 = Ok data_rows ∧
      data_rows.*1 = ["bob"; "alice"; "alice"]).
  { exists (match (generate_rating_csv_for_top_50_classical_players w [0; 1; 2]%nat).2 with
            | Ok data_rows => data_rows
            | Raise _ => []
            end).
    split; vm_compute; reflexivity. }
  split_and!; [exact H1|exact H2|exact H3|].
  intros Hclaim. destruct H3 as (data_rows & Hrows & Horder).
  specialize (Hclaim _ _ H1 H2 Hrows). rewrite Horder in Hclaim. discriminate Hclaim.
Qed.

(** C7. Building the date-to-rating mapping fails as soon as the history
    holds an observation whose year, month + 1 and day are not a calendar
    date, and nothing is dropped silently: the build raises the exception
    of the date constructor, the builtin [ValueError], or [OverflowError]
    when a component is outside the range of a C int (the code's realisation
    of the malformed-observation error of the specification); the loop ends
    at the first such observation. When every observation is a valid date
    the build succeeds, the rating stored for a date is that of the last
    observation made for it, and the mapping holds nothing but observations
    of the history. The build raises no other exception, and raises only for
    a history with a malformed observation. *)
Theorem build_date_to_rating_mapping_spec (classical_history : list point) :
  (∀ year month day rating,
      [year; month; day; rating] ∈ classical_history →
      Calendar.valid_ymd year (month + 1) day = false →
      ∃ e, _build_date_to_rating_mapping classical_history = Raise e ∧
           (e = ValueError ∨ e = OverflowError) ∧
           is_ChessRankingsServiceError e = false) ∧
  (∀ h1 h2 year month day rating,
      classical_history = h1 ++ [year; month; day; rating] :: h2 →
      Forall well_formed h1 →
      Calendar.valid_ymd year (month + 1) day = false →
      _build_date_to_rating_mapping classical_history
      = Raise (if fits_c_int year && fits_c_int (month + 1) && fits_c_int day
               then ValueError else OverflowError)) ∧
  (Forall well_formed classical_history →
   ∃ rating_dict,
     _build_date_to_rating_mapping classical_history = Ok rating_dict ∧
     (∀ h1 h2 year month day rating,
         classical_history = h1 ++ [year; month; day; rating] :: h2 →
         (∀ year' month' day' rating',
             [year'; month'; day'; rating'] ∈ h2 →
             (year', month', day') ≠ (year, month, day)) →
         rating_dict !! Calendar._ymd2ord year (month + 1) day = Some rating) ∧
     (∀ d rating,
         rating_dict !! d = Some rating →
         ∃ year month day,
           [year; month; day; rating] ∈ classical_history ∧
           d = Calendar._ymd2ord year (month + 1) day)) ∧
  (∀ e, _build_date_to_rating_mapping classical_history = Raise e →
        (e = ValueError ∨ e = OverflowError) ∧
        Exists (λ p, ¬ well_formed p) classical_history).
Proof.
  unfold _build_date_to_rating_mapping. split_and!.
  - intros year month day rating Hin Hinvalid.
    destruct (build_loop_malformed ∅ classical_history) as (e & He & Hkind).
    + apply Exists_exists. exists [year; month; day; rating]. split; [done|].
      intros (y & m & d & r & [= -> -> -> ->] & Hv). congruence.
    + exists e. split_and!; [done..|]. by destruct Hkind as [-> | ->].
  - intros h1 h2 year month day rating -> Hwf Hinvalid.
    by apply build_loop_first_malformed.
  - intros Hwf. destruct (build_loop_well_formed ∅ _ Hwf) as [T HT].
    exists T. split_and!; [done| |].
    + intros h1 h2 year month day rating -> Hlater.
      apply build_loop_app in HT as (T1 & _ & HT).
      apply Forall_app in Hwf as [_ Hwf]. apply Forall_cons in Hwf as [Hp Hwf2].
      destruct Hp as (y & m & d & r & [= <- <- <- <-] & Hv).
      rewrite build_loop_cons_ok in HT by done.
      apply (build_loop_keeps _ _ _ _ _ HT); [by rewrite lookup_insert_eq|].
      intros y' m' d' r' Hin Hv' Heq.
      apply (Hlater y' m' d' r' Hin).
      pose proof (CalendarFacts.ymd2ord_inj _ _ _ _ _ _ Hv' Hv Heq) as Hinj.
      injection Hinj as -> Hm ->. by assert (m' = month) as -> by lia.
    + intros d rating Hd.
      destruct (build_loop_origin _ _ _ _ _ HT Hd) as [Hempty | (y & m & dd & Hin & _ & ->)].
      * by rewrite lookup_empty in Hempty.
      * by exists y, m, dd.
  - apply build_loop_raises.
Qed.

Lemma build_date_to_rating_mapping_spec_witness :
  _build_date_to_rating_mapping [[2024; 0; 15; 1500]; [2024; 1; 30; 1500]] = Raise ValueError ∧
  _build_date_to_rating_mapping [[2024; 0; 15; 1500]; [2147483648; 0; 1; 1500]]
  = Raise OverflowError ∧
  ∃ rating_dict,
    _build_date_to_rating_mapping
      [[2024; 0; 15; 1500]; [2024; 0; 20; 1550]; [2024; 0; 15; 1520]] = Ok rating_dict ∧
    rating_dict !! Calendar._ymd2ord 2024 1 15 = Some 1520.
Proof.
  assert (Hwf : Forall well_formed [[2024; 0; 15; 1500]])
    by (repeat constructor; eexists _, _, _, _; (split; reflexivity)).
  split_and!.
  - apply (proj1 (proj2 (build_date_to_rating_mapping_spec _))
             [[2024; 0; 15; 1500]] [] 2024 1 30 1500 eq_refl Hwf eq_refl).
  - apply (proj1 (proj2 (build_date_to_rating_mapping_spec _))
             [[2024; 0; 15; 1500]] [] 2147483648 0 1 1500 eq_refl Hwf eq_refl).
  - destruct (proj1 (proj2 (proj2 (build_date_to_rating_mapping_spec
        [[2024; 0; 15; 1500]; [2024; 0; 20; 1550]; [2024; 0; 15; 1520]]))))
      as (rating_dict & Hbuild & Hlast & _).
    + repeat constructor; eexists _, _, _, _; (split; [reflexivity|reflexivity]).
    + exists rating_dict. split; [exact Hbuild|].
      apply (Hlast [[2024; 0; 15; 1500]; [2024; 0; 20; 1550]] [] 2024 0 15 1520 eq_refl).
      intros y m d r Hin. by apply elem_of_nil in Hin.
Defined.

(** C8, as the code has it. Fetching a player's rating history raises
    [RatingHistoryNotFoundError] for that username exactly when the provider
    returns an absent (null) document; a transport failure raises [APIError]
    instead; an empty document is returned as it is, and the category lookup
    that follows then raises [ClassicalRatingNotFoundError]. *)
Theorem rating_history_not_found_iff_absent (w : world) (username : string) :
  (_get_player_rating_history w username = Raise (RatingHistoryNotFoundError username) ↔
   get_rating_history w (rating_history_url username) = Json None) ∧
  (∀ reason,
      get_rating_history w (rating_history_url username) = RequestFailed reason →
      ∃ message,
        _get_player_rating_history w username
        = Raise (APIError message (rating_history_url username))) ∧
  (get_rating_history w (rating_history_url username) = Json (Some []) →
   _get_player_rating_history w username = Ok [] ∧
   _get_last_30_days_classical_ratings_for_player w username
   = Raise (ClassicalRatingNotFoundError username)).
Proof.
  unfold _get_last_30_days_classical_ratings_for_player, _get_player_rating_history,
    _fetch_json.
  destruct (get_rating_history w (rating_history_url username)) as [reason|[data|]];
    simpl; split_and!; try done.
  - intros reason' _. by eexists.
  - by intros [= ->].
Qed.

Lemma rating_history_not_found_iff_absent_witness :
  let w := sample_world [] in
  _get_player_rating_history w "dave" = Raise (RatingHistoryNotFoundError "dave") ∧
  (∃ message,
      _get_player_rating_history w "erin"
      = Raise (APIError message (rating_history_url "erin"))) ∧
  _get_player_rating_history w "bob" = Ok [] ∧
  _get_last_30_days_classical_ratings_for_player w "bob"
  = Raise (ClassicalRatingNotFoundError "bob").
Proof.
  intros w. split_and!.
  - apply (proj1 (rating_history_not_found_iff_absent w "dave")). reflexivity.
  - apply (proj1 (proj2 (rating_history_not_found_iff_absent w "erin")) "404 Client Error").
    reflexivity.
  - apply (proj2 (proj2 (rating_history_not_found_iff_absent w "bob"))). reflexivity.
  - apply (proj2 (proj2 (rating_history_not_found_iff_absent w "bob"))). reflexivity.
Defined.

(** C8, as stated, fails: for bob the provider returns an empty document and
    the fetch returns it without raising [RatingHistoryNotFoundError]. *)
Lemma rating_history_not_found_counterexample :
  let w := sample_world [] in
  get_rating_history w (rating_history_url "bob") = Json (Some []) ∧
  _get_player_rating_history w "bob" = Ok [] ∧
  ¬ not_found_iff_absent_or_empty w "bob".
Proof.
  intros w.
  assert (H1 : get_rating_history w (rating_history_url "bob") = Json (Some []))
    by reflexivity.
  assert (H2 : _get_player_rating_history w "bob" = Ok []) by reflexivity.
  split_and!; [exact H1|exact H2|].
  intros [_ Hclaim]. rewrite H2 in Hclaim. by specialize (Hclaim (or_intror H1)).
Qed.

(** C9. The leaderboard retrieval raises [PlayerNotFoundError] (the
    no-players error of the specification) whenever the provider's document
    is absent, has no player list, or has a null or empty one, and the bulk
    export then ends with that error without submitting a single task. When
    the list is not empty the retrieval returns the usernames of the list in
    the provider's order: the list's username column without its missing and
    empty items, hence the column itself when no entry is blank. *)
Theorem top_players_not_found_or_in_order (w : world) (count : Z) :
  (get_leaderboard w (leaderboard_url count) = Json None ∨
   get_leaderboard w (leaderboard_url count) = Json (Some {| users := None |}) ∨
   get_leaderboard w (leaderboard_url count) = Json (Some {| users := Some None |}) ∨
   get_leaderboard w (leaderboard_url count) = Json (Some {| users := Some (Some []) |}) →
   ∃ message,
     _get_top_players_usernames w count = Raise (PlayerNotFoundError message) ∧
     (count = 50 →
      ∀ schedule,
        generate_rating_csv_for_top_50_classical_players w schedule
        = ([], Raise (PlayerNotFoundError message)))) ∧
  (∀ players,
      get_leaderboard w (leaderboard_url count)
      = Json (Some {| users := Some (Some players) |}) →
      players ≠ [] →
      ∃ usernames,
        _get_top_players_usernames w count = Ok usernames ∧
        Some <$> usernames
        = filter (λ o, o ≠ None ∧ o ≠ Some "") (player_username <$> players) ∧
        (Forall (λ p, ¬ blank p) players → Some <$> usernames = player_username <$> players)).
Proof.
  split.
  - intros Hresp.
    assert (∃ message,
              _get_top_players_usernames w count = Raise (PlayerNotFoundError message))
      as [message Htop].
    { unfold _get_top_players_usernames, _fetch_json.
      destruct Hresp as [-> | [-> | [-> | ->]]]; simpl; by eexists. }
    exists message. split; [done|]. intros -> schedule.
    unfold generate_rating_csv_for_top_50_classical_players. by rewrite Htop.
  - intros players Hresp Hne. exists (omap truthy_username players).
    split_and!; [by apply top_players_listed|apply truthy_usernames_filter|].
    intros Hall. rewrite truthy_usernames_filter. clear Hresp Hne.
    induction Hall as [|p players Hp _ IH]; [done|].
    rewrite fmap_cons, filter_cons, decide_True.
    + by rewrite IH.
    + unfold blank in Hp. split; intros Heq; apply Hp; [by left | by right].
Qed.

Lemma top_players_not_found_or_in_order_witness :
  (∃ message,
      _get_top_players_usernames (sample_world []) 50 = Raise (PlayerNotFoundError message) ∧
      generate_rating_csv_for_top_50_classical_players (sample_world []) [0; 1]%nat
      = ([], Raise (PlayerNotFoundError message))) ∧
  ∃ usernames,
    _get_top_players_usernames (sample_world [Some "alice"; Some "bob"]) 50 = Ok usernames ∧
    Some <$> usernames = [Some "alice"; Some "bob"].
Proof.
  split.
  - destruct (proj1 (top_players_not_found_or_in_order (sample_world []) 50))
      as (message & Htop & Hgen).
    + right. right. right. reflexivity.
    + exists message. exact (conj Htop (Hgen eq_refl _)).
  - destruct (proj2 (top_players_not_found_or_in_order
                       (sample_world [Some "alice"; Some "bob"]) 50)
                _ eq_refl)
      as (usernames & Htop & _ & Hall).
    + discriminate.
    + exists usernames. split; [exact Htop|].
      apply Hall. repeat (apply Forall_cons_2; [by intros [?|?] |]). apply Forall_nil_2.
Defined.

(** C10. For a non-empty player list the leaderboard retrieval returns
    without an error, and what it returns is the list's username column
    without the entries whose username is missing or empty: every blank
    entry makes the result one shorter, no returned username is empty, and
    with a blank entry in a list of at most [count] players fewer than
    [count] usernames are returned. *)
Theorem top_players_drops_blank_usernames (w : world) (count : Z) (players : list player) :
  get_leaderboard w (leaderboard_url count) = Json (Some {| users := Some (Some players) |}) →
  players ≠ [] →
  ∃ usernames,
    _get_top_players_usernames w count = Ok usernames ∧
    Some <$> usernames
    = filter (λ o, o ≠ None ∧ o ≠ Some "") (player_username <$> players) ∧
    (length usernames + length (filter blank players))%nat = length players ∧
    ("" ∉ usernames) ∧
    (Exists blank players → Z.of_nat (length players) ≤ count →
     Z.of_nat (length usernames) < count).
Proof.
  intros Hresp Hne. exists (omap truthy_username players).
  pose proof (truthy_usernames_length players) as Hlen.
  split_and!; [by apply top_players_listed|apply truthy_usernames_filter|done| |].
  - intros Hin. apply list_elem_of_omap in Hin as (p & _ & Hp).
    by apply truthy_username_Some in Hp as [_ Hp].
  - intros Hex Hcount. apply Exists_exists in Hex as (p & Hin & Hp).
    assert (p ∈ filter blank players) as Hf by (by apply list_elem_of_filter).
    destruct (filter blank players); [by apply elem_of_nil in Hf|]. simpl in Hlen. lia.
Qed.

Lemma top_players_drops_blank_usernames_witness :
  let w := sample_world [Some "alice"; None; Some ""; Some "bob"] in
  let players := (λ o, {| player_username := o |}) <$> [Some "alice"; None; Some ""; Some "bob"] in
  get_leaderboard w (leaderboard_url 50) = Json (Some {| users := Some (Some players) |}) ∧
  players ≠ [] ∧
  ∃ usernames,
    _get_top_players_usernames w 50 = Ok usernames ∧
    Some <$> usernames = [Some "alice"; Some "bob"] ∧
    Z.of_nat (length usernames) < 50.
Proof.
  intros w players.
  assert (H1 : get_leaderboard w (leaderboard_url 50)
               = Json (Some {| users := Some (Some players) |})) by reflexivity.
  assert (H2 : players ≠ []) by discriminate.
  refine (conj H1 (conj H2 _)).
  destruct (top_players_drops_blank_usernames w 50 players H1 H2)
    as (usernames & Htop & Hcol & _ & _ & Hfewer).
  exists usernames. refine (conj Htop (conj Hcol (Hfewer _ _))).
  - apply Exists_cons_tl, Exists_cons_hd. by left.
  - vm_compute. discriminate.
Defined.

(** * Further properties of the code *)

(** ** The window *)

Section Window.
Implicit Types (rating_dict : gmap Z Z) (dates : list date).

Lemma date_sub_days_inv (d : date) (i : Z) (o : date) :
  date_sub_days d i = Ok o → o = d - i ∧ 0 < d - i ≤ Calendar._MAXORDINAL.
Proof.
  unfold date_sub_days. cbv zeta.
  destruct (Z.ltb_spec 0 (d - i)), (Z.leb_spec (d - i) Calendar._MAXORDINAL);
    simpl; intros [= <-]; lia.
Qed.

Lemma mapM_Ok_inv {A B : Type} (f : A → result B) (l : list A) (k : list B) :
  mapM f l = Ok k → Forall2 (λ x y, f x = Ok y) l k.
Proof.
  revert k. induction l as [|x l IH]; intros k; simpl.
  - intros [= <-]. constructor.
  - destruct (f x) as [y|] eqn:Hx; [|done]. simpl.
    destruct (mapM f l) as [k'|]; [|done]. simpl. intros [= <-].
    constructor; [done | by apply IH].
Qed.

(** A window of dates exists only for a clock in range. *)
Lemma last_30_days_inv (today : date) dates :
  last_30_days today = Ok dates → 30 < today ≤ Calendar._MAXORDINAL.
Proof.
  intros Hdates. apply mapM_Ok_inv in Hdates.
  assert (H30 : 30 ∈ range_down 30 (-1)) by (by vm_compute; left).
  assert (H0 : 0 ∈ range_down 30 (-1)) by (vm_compute; do 30 right; left).
  destruct (Forall2_lookup_l _ _ _ 0%nat 30 Hdates) as (o30 & _ & Ho30); [done|].
  destruct (Forall2_lookup_l _ _ _ 30%nat 0 Hdates) as (o0 & _ & Ho0); [done|].
  apply date_sub_days_inv in Ho30, Ho0. lia.
Qed.

Lemma generate_ok_inv (today : date) rating_dict W :
  _generate_last_30_days_ratings today rating_dict = Ok W →
  30 < today ≤ Calendar._MAXORDINAL.
Proof.
  intros HW. destruct (generate_inv _ _ _ HW) as (dates & c & Hdates & _).
  by eapply last_30_days_inv.
Qed.

Lemma generate_out_of_range (today : date) rating_dict :
  ¬ (30 < today ≤ Calendar._MAXORDINAL) →
  _generate_last_30_days_ratings today rating_dict = Raise OverflowError.
Proof.
  intros Hout. unfold _generate_last_30_days_ratings.
  destruct (last_30_days today) as [dates|e] eqn:Hdates.
  { by apply last_30_days_inv in Hdates. }
  simpl. f_equal. clear Hout. revert Hdates. unfold last_30_days.
  generalize (range_down 30 (-1)). intros l. revert e.
  induction l as [|i l IH]; intros e; simpl; [done|].
  destruct (date_sub_days today i) as [o|e'] eqn:Hi; simpl.
  - destruct (mapM _ l) as [k|e''] eqn:Hl; simpl; [done|]. intros [= <-]. by apply IH.
  - intros [= <-]. unfold date_sub_days in Hi. cbv zeta in Hi.
    by destruct (_ && _); simplify_eq.
Qed.

(** Two windows whose timelines put the same rating in force on every day
    up to today are equal. *)
Lemma generate_ext (today : date) rating_dict1 rating_dict2 :
  (∀ d o, d ≤ today → carried rating_dict1 d o → carried rating_dict2 d o) →
  _generate_last_30_days_ratings today rating_dict1 =
  _generate_last_30_days_ratings today rating_dict2.
Proof.
  intros Hcar.
  destruct (decide (30 < today ≤ Calendar._MAXORDINAL)) as [Hclock|Hclock].
  - destruct (generate_entry today rating_dict1 Hclock) as (W1 & -> & Hlen1 & H1).
    destruct (generate_entry today rating_dict2 Hclock) as (W2 & -> & Hlen2 & H2).
    f_equal. apply list_eq. intros i.
    destruct (decide (i < 31)%nat) as [Hi|Hi].
    + destruct (H1 i Hi) as (o1 & -> & Hc1). destruct (H2 i Hi) as (o2 & -> & Hc2).
      f_equal. eapply carried_unique; [|done]. apply Hcar; [lia|done].
    + rewrite !lookup_ge_None_2; [done|lia..].
  - by rewrite !generate_out_of_range.
Qed.
End Window.

(** X1. Observations dated after today never influence the window: the
    reconstruction gives the same result, or raises the same exception, on
    the timeline restricted to the dates up to today. *)
Theorem window_ignores_later_observations (today : date) (rating_dict : gmap Z Z) :
  _generate_last_30_days_ratings today (filter (λ kv, kv.1 ≤ today) rating_dict) =
  _generate_last_30_days_ratings today rating_dict.
Proof.
  apply generate_ext. intros d o Hd.
  assert (Hin : ∀ k v, k ≤ today → rating_dict !! k = Some v →
                       filter (λ kv : Z * Z, kv.1 ≤ today) rating_dict !! k = Some v)
    by (intros k v Hk Hv; by apply map_lookup_filter_Some).
  destruct o as [r|]; simpl.
  - intros (k & Hk & Hle & Hmax). apply map_lookup_filter_Some in Hk as [Hk _].
    exists k. split_and!; [done..|]. intros d' [v Hv] Hd'. apply Hmax; [|done].
    exists v. apply Hin; [lia|done].
  - intros Hnone d' [v Hv]. destruct (decide (d' ≤ today)) as [Hle|]; [|lia].
    apply Hnone. exists v. by apply Hin.
Qed.

(** X2. The reports of consecutive days agree on the days they share: entry
    [i] of tomorrow's window is entry [i + 1] of today's. *)
Theorem window_next_day_shift (today : date) (rating_dict : gmap Z Z)
    (W W' : list (option Z)) (i : nat) :
  _generate_last_30_days_ratings today rating_dict = Ok W →
  _generate_last_30_days_ratings (today + 1) rating_dict = Ok W' →
  (i < 30)%nat →
  W' !! i = W !! S i.
Proof.
  intros HW HW' Hi.
  destruct (generate_entry today rating_dict (generate_ok_inv _ _ _ HW))
    as (W1 & HW1 & _ & H1).
  destruct (generate_entry (today + 1) rating_dict (generate_ok_inv _ _ _ HW'))
    as (W2 & HW2 & _ & H2).
  rewrite HW in HW1. injection HW1 as <-. rewrite HW' in HW2. injection HW2 as <-.
  destruct (H1 (S i) ltac:(lia)) as (o1 & -> & Hc1).
  destruct (H2 i ltac:(lia)) as (o2 & -> & Hc2). f_equal.
  replace (today + 1 - 30 + Z.of_nat i) with (today - 30 + Z.of_nat (S i)) in Hc2 by lia.
  by eapply carried_unique.
Qed.

Lemma window_next_day_shift_witness :
  let rating_dict : gmap Z Z := {[ 738900 := 1500; 738905 := 1550 ]} in
  ∃ W W',
    _generate_last_30_days_ratings 738907 rating_dict = Ok W ∧
    _generate_last_30_days_ratings (738907 + 1) rating_dict = Ok W' ∧
    (22 < 30)%nat ∧
    W' !! 22%nat = W !! 23%nat.
Proof.
  intros rating_dict.
  exists (replicate 23 None ++ replicate 5 (Some 1500) ++ replicate 3 (Some 1550)),
         (replicate 22 None ++ replicate 5 (Some 1500) ++ replicate 4 (Some 1550)).
  assert (H1 : _generate_last_30_days_ratings 738907 rating_dict
               = Ok (replicate 23 None ++ replicate 5 (Some 1500) ++ replicate 3 (Some 1550)))
    by (vm_compute; reflexivity).
  assert (H2 : _generate_last_30_days_ratings (738907 + 1) rating_dict
               = Ok (replicate 22 None ++ replicate 5 (Some 1500) ++ replicate 4 (Some 1550)))
    by (vm_compute; reflexivity).
  assert (H3 : (22 < 30)%nat) by lia.
  exact (conj H1 (conj H2 (conj H3
           (window_next_day_shift 738907 rating_dict _ _ 22 H1 H2 H3)))).
Defined.

(** X3. A new observation dated on a day of the window sets that day's entry
    to its rating and leaves the entries of the earlier days as they were. *)
Theorem window_after_new_observation (today : date) (rating_dict : gmap Z Z)
    (W : list (option Z)) (j : nat) (rating : Z) :
  _generate_last_30_days_ratings today rating_dict = Ok W →
  (j < 31)%nat →
  ∃ W',
    _generate_last_30_days_ratings today (<[today - 30 + Z.of_nat j := rating]> rating_dict)
    = Ok W' ∧
    W' !! j = Some (Some rating) ∧
    ∀ i, (i < j)%nat → W' !! i = W !! i.
Proof.
  intros HW Hj. pose proof (generate_ok_inv _ _ _ HW) as Hclock.
  destruct (generate_entry today rating_dict Hclock) as (W1 & HW1 & _ & H1).
  rewrite HW in HW1. injection HW1 as <-.
  set (k := today - 30 + Z.of_nat j).
  destruct (generate_entry today (<[k := rating]> rating_dict) Hclock)
    as (W' & HW' & _ & H2).
  exists W'. split_and!; [done| |].
  - destruct (H2 j Hj) as (o & -> & Hc). f_equal. eapply carried_unique; [done|].
    exists k. split_and!; [by rewrite lookup_insert_eq|done|auto].
  - intros i Hi. destruct (H1 i ltac:(lia)) as (o1 & -> & Hc1).
    destruct (H2 i ltac:(lia)) as (o2 & -> & Hc2). f_equal.
    eapply carried_unique; [done|].
    assert (Hother : ∀ d, d ≤ today - 30 + Z.of_nat i →
              <[k := rating]> rating_dict !! d = rating_dict !! d)
      by (intros d Hd; apply lookup_insert_ne; unfold k; lia).
    destruct o1 as [r1|]; simpl in *.
    + destruct Hc1 as (d & Hd & Hle & Hmax). exists d.
      split_and!; [by rewrite Hother|done|].
      intros d' Hd' Hle'. apply Hmax; [|done]. by rewrite <- Hother.
    + intros d' Hd'. destruct (decide (d' ≤ today - 30 + Z.of_nat i)) as [Hle|]; [|lia].
      apply Hc1. by rewrite <- Hother.
Qed.

Lemma window_after_new_observation_witness :
  let rating_dict : gmap Z Z := {[ 738900 := 1500; 738905 := 1550 ]} in
  _generate_last_30_days_ratings 738907 rating_dict
  = Ok (replicate 23 None ++ replicate 5 (Some 1500) ++ replicate 3 (Some 1550)) ∧
  (10 < 31)%nat ∧
  ∃ W',
    _generate_last_30_days_ratings 738907 (<[738907 - 30 + Z.of_nat 10 := 1400]> rating_dict)
    = Ok W' ∧
    W' !! 10%nat = Some (Some 1400).
Proof.
  intros rating_dict.
  assert (H1 : _generate_last_30_days_ratings 738907 rating_dict
               = Ok (replicate 23 None ++ replicate 5 (Some 1500) ++ replicate 3 (Some 1550)))
    by (vm_compute; reflexivity).
  assert (H2 : (10 < 31)%nat) by lia.
  refine (conj H1 (conj H2 _)).
  destruct (window_after_new_observation 738907 rating_dict _ 10 1400 H1 H2)
    as (W' & HW' & Hj & _).
  exists W'. exact (conj HW' Hj).
Defined.

(** X4. In a window the absent entries come first: once a day has a rating,
    every later day has one; and every rating of the window is the rating of
    an observation of the timeline dated on or before the entry's day. *)
Theorem window_absent_prefix (today : date) (rating_dict : gmap Z Z)
    (W : list (option Z)) :
  _generate_last_30_days_ratings today rating_dict = Ok W →
  (∀ i j, (i ≤ j)%nat → W !! j = Some None → W !! i = Some None) ∧
  (∀ i rating,
      W !! i = Some (Some rating) →
      ∃ d, d ≤ today - 30 + Z.of_nat i ∧ rating_dict !! d = Some rating).
Proof.
  intros HW. pose proof (generate_ok_inv _ _ _ HW) as Hclock.
  destruct (generate_entry today rating_dict Hclock) as (W1 & HW1 & Hlen & Hentry).
  rewrite HW in HW1. injection HW1 as <-. split.
  - intros i j Hij Hj. apply lookup_lt_Some in Hj as Hjlt. rewrite Hlen in Hjlt.
    destruct (Hentry j Hjlt) as (oj & Hoj & Hcj). rewrite Hj in Hoj. injection Hoj as <-.
    destruct (Hentry i ltac:(lia)) as (oi & -> & Hci). f_equal.
    destruct oi as [r|]; [|done]. simpl in *.
    destruct Hci as (d & Hd & Hle & _). specialize (Hcj d (mk_is_Some _ _ Hd)). lia.
  - intros i rating Hi. apply lookup_lt_Some in Hi as Hilt. rewrite Hlen in Hilt.
    destruct (Hentry i Hilt) as (o & Ho & Hc). rewrite Hi in Ho. injection Ho as <-.
    destruct Hc as (d & Hd & Hle & _). by exists d.
Qed.

Lemma window_absent_prefix_witness :
  let rating_dict : gmap Z Z := {[ 738900 := 1500; 738905 := 1550 ]} in
  let W := replicate 23 None ++ replicate 5 (Some 1500) ++ replicate 3 (Some 1550) in
  _generate_last_30_days_ratings 738907 rating_dict = Ok W ∧
  W !! 3%nat = Some None ∧
  ∃ d, d ≤ 738907 - 30 + Z.of_nat 25 ∧ rating_dict !! d = Some 1500.
Proof.
  intros rating_dict W.
  assert (H1 : _generate_last_30_days_ratings 738907 rating_dict = Ok W)
    by (vm_compute; reflexivity).
  destruct (window_absent_prefix 738907 rating_dict W H1) as [Hprefix Hvalues].
  refine (conj H1 (conj (Hprefix 3%nat 20%nat _ eq_refl) (Hvalues 25%nat 1500 eq_refl))).
  lia.
Defined.

(** ** The timeline and the category lookup *)

Section BuildOrder.
Import Calendar.

Lemma well_formed_dec (p : point) : Decision (well_formed p).
Proof.
  destruct p as [|y [|m [|d [|r [|]]]]];
    try (right; by intros (? & ? & ? & ? & ? & _)).
  destruct (valid_ymd y (m + 1) d) eqn:Hv.
  - left. by exists y, m, d, r.
  - right. intros (? & ? & ? & ? & [= <- <- <- <-] & Hv'). congruence.
Defined.

(** With one observation per date, the mapping holds exactly the
    observations of the history. *)
Lemma build_loop_distinct_lookup (T : gmap Z Z) h (k : date) (r : Z) :
  Forall well_formed h →
  NoDup (take 3 <$> h) →
  build_loop ∅ h = Ok T →
  T !! k = Some r ↔
  ∃ y m d, [y; m; d; r] ∈ h ∧ k = _ymd2ord y (m + 1) d.
Proof.
  intros Hwf Hnd HT. split.
  - intros Hk. destruct (build_loop_origin _ _ _ _ _ HT Hk) as [Hempty|(y & m & d & Hin & _ & ->)].
    + by rewrite lookup_empty in Hempty.
    + by exists y, m, d.
  - intros (y & m & d & Hin & ->).
    apply list_elem_of_split in Hin as (h1 & h2 & ->).
    apply build_loop_app in HT as (T1 & _ & HT).
    apply Forall_app in Hwf as [_ Hwf]. apply Forall_cons in Hwf as [Hp Hwf2].
    destruct Hp as (y0 & m0 & d0 & r0 & [= <- <- <- <-] & Hv).
    rewrite build_loop_cons_ok in HT by done.
    apply (build_loop_keeps _ _ _ _ _ HT); [by rewrite lookup_insert_eq|].
    intros y' m' d' r' Hin' Hv' Heq.
    pose proof (CalendarFacts.ymd2ord_inj _ _ _ _ _ _ Hv' Hv Heq) as Hinj.
    injection Hinj as -> Hm ->. assert (m' = m) as -> by lia.
    rewrite fmap_app, fmap_cons in Hnd. apply NoDup_app in Hnd as (_ & _ & Hnd).
    apply NoDup_cons in Hnd as [Hnotin _]. apply Hnotin.
    apply list_elem_of_fmap. by exists [y; m; d; r'].
Qed.
End BuildOrder.

(** X5. The order of the observations does not matter when no two of them
    have the same date. For two histories that are rearrangements of each
    other: when every observation is a calendar date both build the same
    mapping; when one is not, both raise [ValueError] or [OverflowError]
    (which of the two is raised is decided by the first malformed
    observation met, so it can differ between the two orders). *)
Theorem build_mapping_order_independent (h1 h2 : list point) :
  h1 ≡ₚ h2 →
  NoDup (take 3 <$> h1) →
  (Forall well_formed h1 →
   ∃ rating_dict,
     _build_date_to_rating_mapping h1 = Ok rating_dict ∧
     _build_date_to_rating_mapping h2 = Ok rating_dict) ∧
  (Exists (λ p, ¬ well_formed p) h1 →
   ∃ e1 e2,
     _build_date_to_rating_mapping h1 = Raise e1 ∧
     _build_date_to_rating_mapping h2 = Raise e2 ∧
     (e1 = ValueError ∨ e1 = OverflowError) ∧
     (e2 = ValueError ∨ e2 = OverflowError)).
Proof.
  intros Hperm Hnd. unfold _build_date_to_rating_mapping. split.
  - intros Hwf. destruct (build_loop_well_formed ∅ h1 Hwf) as [T1 HT1].
    assert (Hwf2 : Forall well_formed h2) by (by rewrite <- Hperm).
    assert (Hnd2 : NoDup (take 3 <$> h2)) by (by rewrite <- Hperm).
    destruct (build_loop_well_formed ∅ h2 Hwf2) as [T2 HT2].
    exists T1. split; [done|]. rewrite HT2. f_equal. apply map_eq. intros k.
    apply option_eq. intros r.
    rewrite (build_loop_distinct_lookup _ _ _ _ Hwf Hnd HT1),
      (build_loop_distinct_lookup _ _ _ _ Hwf2 Hnd2 HT2).
    by setoid_rewrite Hperm.
  - intros Hex. assert (Hex2 : Exists (λ p, ¬ well_formed p) h2) by (by rewrite <- Hperm).
    destruct (build_loop_malformed ∅ h1 Hex) as (e1 & He1 & Hk1).
    destruct (build_loop_malformed ∅ h2 Hex2) as (e2 & He2 & Hk2).
    by exists e1, e2.
Qed.

Lemma build_mapping_order_independent_witness :
  [[2024; 0; 15; 1500]; [2024; 0; 20; 1550]] ≡ₚ [[2024; 0; 20; 1550]; [2024; 0; 15; 1500]] ∧
  NoDup (take 3 <$> [[2024; 0; 15; 1500]; [2024; 0; 20; 1550]]) ∧
  Forall well_formed [[2024; 0; 15; 1500]; [2024; 0; 20; 1550]] ∧
  ∃ rating_dict,
    _build_date_to_rating_mapping [[2024; 0; 15; 1500]; [2024; 0; 20; 1550]]
    = Ok rating_dict ∧
    _build_date_to_rating_mapping [[2024; 0; 20; 1550]; [2024; 0; 15; 1500]]
    = Ok rating_dict.
Proof.
  assert (H1 : [[2024; 0; 15; 1500]; [2024; 0; 20; 1550]]
               ≡ₚ [[2024; 0; 20; 1550]; [2024; 0; 15; 1500]]) by apply Permutation_swap.
  assert (H2 : NoDup (take 3 <$> [[2024; 0; 15; 1500]; [2024; 0; 20; 1550]]))
    by compute_done.
  assert (H3 : Forall well_formed [[2024; 0; 15; 1500]; [2024; 0; 20; 1550]])
    by (repeat constructor; eexists _, _, _, _; (split; reflexivity)).
  exact (conj H1 (conj H2 (conj H3
           (proj1 (build_mapping_order_independent _ _ H1 H2) H3)))).
Defined.

Section Extract.
Implicit Types (rating_data : list variant) (v : variant).

Lemma extract_no_classical rating_data username :
  Forall (λ v, name v ≠ Some "Classical") rating_data →
  _extract_classical_rating_history rating_data username
  = Raise (ClassicalRatingNotFoundError username).
Proof.
  induction 1 as [|v rating_data Hv _ IH]; simpl; [done|]. by rewrite decide_False.
Qed.

Lemma extract_first_classical pre v post username :
  Forall (λ v', name v' ≠ Some "Classical") pre →
  name v = Some "Classical" →
  _extract_classical_rating_history (pre ++ v :: post) username
  = Ok (default [] (points v)).
Proof.
  intros Hpre Hv. induction Hpre as [|v' pre Hv' _ IH]; simpl.
  - by rewrite decide_True.
  - by rewrite decide_False.
Qed.

Lemma extract_cases rating_data :
  (Forall (λ v, name v ≠ Some "Classical") rating_data) ∨
  (∃ pre v post, rating_data = pre ++ v :: post ∧
     Forall (λ v', name v' ≠ Some "Classical") pre ∧ name v = Some "Classical").
Proof.
  induction rating_data as [|v rating_data IH]; [by left|].
  destruct (decide (name v = Some "Classical")) as [Hv|Hv].
  - right. by exists [], v, rating_data.
  - destruct IH as [Hall|(pre & v' & post & -> & Hpre & Hv')].
    + left. by constructor.
    + right. exists (v :: pre), v', post. split_and!; [done| by constructor |done].
Qed.
End Extract.

(** X6. The category lookup returns the points of the first entry named
    "Classical" (an entry without points counts as an empty history), whatever
    follows it, and raises [ClassicalRatingNotFoundError] for the username
    exactly when no entry has that name; it raises nothing else. *)
Theorem extract_classical_first_match (rating_data : list variant) (username : string) :
  (∀ pre v post,
      rating_data = pre ++ v :: post →
      Forall (λ v', name v' ≠ Some "Classical") pre →
      name v = Some "Classical" →
      _extract_classical_rating_history rating_data username
      = Ok (default [] (points v))) ∧
  (Forall (λ v, name v ≠ Some "Classical") rating_data ↔
   _extract_classical_rating_history rating_data username
   = Raise (ClassicalRatingNotFoundError username)) ∧
  (∀ e, _extract_classical_rating_history rating_data username = Raise e →
        e = ClassicalRatingNotFoundError username).
Proof.
  split_and!.
  - intros pre v post -> Hpre Hv. by apply extract_first_classical.
  - split; [apply extract_no_classical|].
    destruct (extract_cases rating_data) as [Hall|(pre & v & post & -> & Hpre & Hv)];
      [done|].
    by rewrite extract_first_classical.
  - intros e.
    destruct (extract_cases rating_data) as [Hall|(pre & v & post & -> & Hpre & Hv)].
    + rewrite extract_no_classical by done. by intros [= <-].
    + by rewrite extract_first_classical.
Qed.

Lemma extract_classical_first_match_witness :
  _extract_classical_rating_history
    [ {| name := Some "Blitz"; points := Some [[2024; 0; 10; 1900]] |};
      {| name := Some "Classical"; points := None |};
      {| name := Some "Classical"; points := Some [[2024; 0; 15; 1500]] |} ] "alice"
  = Ok [] ∧
  _extract_classical_rating_history
    [ {| name := Some "Blitz"; points := Some [[2024; 0; 10; 1900]] |};
      {| name := None; points := None |} ] "alice"
  = Raise (ClassicalRatingNotFoundError "alice").
Proof.
  split.
  - apply (proj1 (extract_classical_first_match _ "alice")
             [ {| name := Some "Blitz"; points := Some [[2024; 0; 10; 1900]] |} ]
             {| name := Some "Classical"; points := None |}
             [ {| name := Some "Classical"; points := Some [[2024; 0; 15; 1500]] |} ]
             eq_refl).
    + apply Forall_cons_2; [discriminate | apply Forall_nil_2].
    + reflexivity.
  - apply (proj1 (proj1 (proj2 (extract_classical_first_match _ "alice")))).
    repeat (apply Forall_cons_2; [discriminate |]). apply Forall_nil_2.
Defined.

(** ** A player's computation and the leaderboard *)

Section Player.
Implicit Types (w : world) (username : string).

Lemma build_ok_well_formed (h : list point) (T : gmap Z Z) :
  _build_date_to_rating_mapping h = Ok T → Forall well_formed h.
Proof.
  unfold _build_date_to_rating_mapping. intros HT.
  destruct (Forall_Exists_dec well_formed (λ p, ¬ well_formed p)
              (λ p, match well_formed_dec p with left H => left H | right H => right H end) h)
    as [Hwf|Hex]; [done|].
  by destruct (build_loop_not_Ok _ _ _ Hex HT).
Qed.

Lemma generate_empty (today : date) :
  30 < today ≤ Calendar._MAXORDINAL →
  _generate_last_30_days_ratings today ∅ = Ok (replicate 31 None).
Proof.
  intros Hclock. destruct (generate_entry today ∅ Hclock) as (W & -> & Hlen & Hentry).
  f_equal. apply list_eq. intros i. destruct (decide (i < 31)%nat) as [Hi|Hi].
  - rewrite lookup_replicate_2 by done. destruct (Hentry i Hi) as (o & -> & Hc).
    destruct o as [r|]; [|done]. destruct Hc as (d & Hd & _). by rewrite lookup_empty in Hd.
  - rewrite !lookup_ge_None_2; [done|rewrite length_replicate; lia|lia].
Qed.

Lemma generate_length (today : date) (rating_dict : gmap Z Z) W :
  _generate_last_30_days_ratings today rating_dict = Ok W → length W = 31%nat.
Proof.
  intros HW. pose proof (generate_ok_inv _ _ _ HW) as Hclock.
  destruct (generate_entry today rating_dict Hclock) as (W' & HW' & Hlen & _). congruence.
Qed.

Lemma per_player_length w username ratings :
  _get_last_30_days_classical_ratings_for_player w username = Ok ratings →
  length ratings = 31%nat.
Proof.
  unfold _get_last_30_days_classical_ratings_for_player.
  destruct (_get_player_rating_history w username); [|done]. simpl.
  destruct (_extract_classical_rating_history _ _); [|done]. simpl.
  destruct (_build_date_to_rating_mapping _); [|done]. simpl.
  apply generate_length.
Qed.
End Player.

(** X7. With the clock in range and a provider whose documents have the
    annotated shape (a list of entries, each with its points missing or a
    list of integer lists), a player's computation has these outcomes and no
    other: 31 ratings, when the document has a "Classical" entry whose
    observations are all calendar dates; [APIError] with the player's URL,
    exactly on a transport failure; [RatingHistoryNotFoundError] for an
    absent document; [ClassicalRatingNotFoundError] for a document without a
    "Classical" entry; the builtin [ValueError] or [OverflowError] of the
    date constructor for a "Classical" history with a malformed observation. *)
Theorem player_outcomes (w : world) (username : string) :
  30 < now_date w ≤ Calendar._MAXORDINAL →
  match _get_last_30_days_classical_ratings_for_player w username with
  | Ok ratings =>
      length ratings = 31%nat ∧
      ∃ data history,
        get_rating_history w (rating_history_url username) = Json (Some data) ∧
        _extract_classical_rating_history data username = Ok history ∧
        Forall well_formed history
  | Raise (APIError message url) =>
      url = rating_history_url username ∧
      ∃ reason,
        get_rating_history w (rating_history_url username) = RequestFailed reason ∧
        message = "An error occurred while fetching data: " +:+ reason
  | Raise (RatingHistoryNotFoundError u) =>
      u = username ∧ get_rating_history w (rating_history_url username) = Json None
  | Raise (ClassicalRatingNotFoundError u) =>
      u = username ∧
      ∃ data,
        get_rating_history w (rating_history_url username) = Json (Some data) ∧
        Forall (λ v, name v ≠ Some "Classical") data
  | Raise ValueError | Raise OverflowError =>
      ∃ data history,
        get_rating_history w (rating_history_url username) = Json (Some data) ∧
        _extract_classical_rating_history data username = Ok history ∧
        Exists (λ p, ¬ well_formed p) history
  | Raise _ => False
  end.
Proof.
  intros Hclock.
  unfold _get_last_30_days_classical_ratings_for_player, _get_player_rating_history,
    _fetch_json.
  destruct (get_rating_history w (rating_history_url username)) as [reason|[data|]];
    simpl; [by eauto| |done].
  destruct (_extract_classical_rating_history data username) as [history|e] eqn:Hext; simpl.
  - destruct (_build_date_to_rating_mapping history) as [T|e] eqn:Hbuild; simpl.
    + destruct (generate_entry (now_date w) T Hclock) as (W & -> & Hlen & _).
      split; [done|]. exists data, history. split_and!; [done..|].
      by eapply build_ok_well_formed.
    + destruct (build_loop_raises _ _ _ Hbuild) as [[-> | ->] Hex]; by exists data, history.
  - destruct (extract_cases data) as [Hall|(pre & v & post & -> & Hpre & Hv)].
    + rewrite extract_no_classical in Hext by done. injection Hext as <-. eauto.
    + by rewrite extract_first_classical in Hext.
Qed.

Lemma player_outcomes_witness :
  30 < now_date (sample_world []) ≤ Calendar._MAXORDINAL ∧
  _get_last_30_days_classical_ratings_for_player (sample_world []) "carol" = Raise ValueError ∧
  ∃ data history,
    get_rating_history (sample_world []) (rating_history_url "carol") = Json (Some data) ∧
    _extract_classical_rating_history data "carol" = Ok history ∧
    Exists (λ p, ¬ well_formed p) history.
Proof.
  assert (H1 : 30 < now_date (sample_world []) ≤ Calendar._MAXORDINAL)
    by (vm_compute; split; [reflexivity | discriminate]).
  assert (H2 : _get_last_30_days_classical_ratings_for_player (sample_world []) "carol"
               = Raise ValueError) by (vm_compute; reflexivity).
  refine (conj H1 (conj H2 _)).
  pose proof (player_outcomes (sample_world []) "carol" H1) as Hout.
  rewrite H2 in Hout. exact Hout.
Defined.

(** X8. A player whose "Classical" entry has no observations (an empty
    [points] list, or none at all) is no error: with the clock in range the
    computation returns 31 absent entries. *)
Theorem player_without_observations (w : world) (username : string)
    (pre post : list variant) (v : variant) :
  30 < now_date w ≤ Calendar._MAXORDINAL →
  get_rating_history w (rating_history_url username) = Json (Some (pre ++ v :: post)) →
  Forall (λ v', name v' ≠ Some "Classical") pre →
  name v = Some "Classical" →
  points v = None ∨ points v = Some [] →
  _get_last_30_days_classical_ratings_for_player w username = Ok (replicate 31 None).
Proof.
  intros Hclock Hdoc Hpre Hv Hpoints.
  unfold _get_last_30_days_classical_ratings_for_player, _get_player_rating_history,
    _fetch_json.
  rewrite Hdoc. simpl. rewrite extract_first_classical by done.
  assert (default [] (points v) = []) as -> by (by destruct Hpoints as [-> | ->]).
  simpl. by apply generate_empty.
Qed.

Lemma player_without_observations_witness :
  let w := {| now_date := 738907;
              get_leaderboard := λ _, Json None;
              get_rating_history := λ _,
                Json (Some [ {| name := Some "Blitz"; points := Some [[2024; 0; 10; 1900]] |};
                             {| name := Some "Classical"; points := Some [] |} ]) |} in
  30 < now_date w ≤ Calendar._MAXORDINAL ∧
  _get_last_30_days_classical_ratings_for_player w "frank" = Ok (replicate 31 None).
Proof.
  intros w.
  assert (H1 : 30 < now_date w ≤ Calendar._MAXORDINAL)
    by (vm_compute; split; [reflexivity | discriminate]).
  refine (conj H1 _).
  apply (player_without_observations w "frank"
           [ {| name := Some "Blitz"; points := Some [[2024; 0; 10; 1900]] |} ] []
           {| name := Some "Classical"; points := Some [] |} H1 eq_refl).
  - apply Forall_cons_2; [discriminate | apply Forall_nil_2].
  - reflexivity.
  - right. reflexivity.
Defined.

(** X9. The leaderboard retrieval raises nothing but [APIError], exactly on a
    transport failure and carrying the leaderboard URL and the failure's
    text, and [PlayerNotFoundError], for a document it received. *)
Theorem top_players_raises (w : world) (count : Z) :
  (∀ reason,
      get_leaderboard w (leaderboard_url count) = RequestFailed reason →
      _get_top_players_usernames w count
      = Raise (APIError ("An error occurred while fetching data: " +:+ reason)
                 (leaderboard_url count))) ∧
  (∀ e,
      _get_top_players_usernames w count = Raise e →
      is_ChessRankingsServiceError e = true ∧
      ((∃ reason,
           get_leaderboard w (leaderboard_url count) = RequestFailed reason ∧
           e = APIError ("An error occurred while fetching data: " +:+ reason)
                 (leaderboard_url count)) ∨
       (∃ message doc,
           get_leaderboard w (leaderboard_url count) = Json doc ∧
           e = PlayerNotFoundError message))).
Proof.
  unfold _get_top_players_usernames, _fetch_json.
  destruct (get_leaderboard w (leaderboard_url count)) as [reason|doc]; simpl; split.
  - by intros ? [= <-].
  - intros e [= <-]. split; [done|]. left. by exists reason.
  - done.
  - intros e He. destruct doc as [[[[[|p players]|]|]]|]; simpl in He; simplify_eq;
      (split; [done|]); right; by eexists _, _.
Qed.

Lemma top_players_raises_witness :
  let w := {| now_date := 738907;
              get_leaderboard := λ _, RequestFailed "503 Server Error";
              get_rating_history := sample_history |} in
  _get_top_players_usernames w 50
  = Raise (APIError ("An error occurred while fetching data: " +:+ "503 Server Error")
             (leaderboard_url 50)).
Proof.
  intros w. apply (proj1 (top_players_raises w 50) "503 Server Error"). reflexivity.
Defined.

(** ** The reports *)

Module CalendarInverse.
Import Calendar CalendarFacts.

(** Days before the year that starts [400 a + 100 b + 4 c + e] years after
    year 1. *)
Lemma days_before_year_split a b c e :
  0 ≤ a → 0 ≤ b ≤ 3 → 0 ≤ c ≤ 24 → 0 ≤ e ≤ 3 →
  _days_before_year (400 * a + 100 * b + 4 * c + e + 1) =
  146097 * a + 36524 * b + 1461 * c + 365 * e.
Proof.
  intros Ha Hb Hc He. unfold _days_before_year. cbv zeta.
  replace (400 * a + 100 * b + 4 * c + e + 1 - 1) with (400 * a + 100 * b + 4 * c + e) by lia.
  assert ((400 * a + 100 * b + 4 * c + e) / 4 = 100 * a + 25 * b + c) as ->
    by (Z.div_mod_to_equations; lia).
  assert ((400 * a + 100 * b + 4 * c + e) / 100 = 4 * a + b) as ->
    by (Z.div_mod_to_equations; lia).
  assert ((400 * a + 100 * b + 4 * c + e) / 400 = a) as ->
    by (Z.div_mod_to_equations; lia).
  lia.
Qed.

Lemma is_leap_split a b c e :
  0 ≤ a → 0 ≤ b ≤ 3 → 0 ≤ c ≤ 24 → 0 ≤ e ≤ 3 →
  _is_leap (400 * a + 100 * b + 4 * c + e + 1) =
  (e =? 3) && (negb (c =? 24) || (b =? 3)).
Proof.
  intros Ha Hb Hc He. unfold _is_leap.
  set (y := 400 * a + 100 * b + 4 * c + e + 1).
  assert (H4 : y mod 4 = 0 ↔ e = 3) by (unfold y; Z.div_mod_to_equations; lia).
  assert (H100 : y mod 100 = 0 ↔ c = 24 ∧ e = 3) by (unfold y; Z.div_mod_to_equations; lia).
  assert (H400 : y mod 400 = 0 ↔ b = 3 ∧ c = 24 ∧ e = 3)
    by (unfold y; Z.div_mod_to_equations; lia).
  destruct (Z.eqb_spec (y mod 4) 0), (Z.eqb_spec (y mod 100) 0),
    (Z.eqb_spec (y mod 400) 0), (Z.eqb_spec e 3), (Z.eqb_spec c 24), (Z.eqb_spec b 3);
    simpl; try done; lia.
Qed.

Lemma ord2ymd_month_day leap r :
  0 ≤ r < 365 →
  let month := Z.shiftr (r + 50) 5 in
  let preceding := _DAYS_BEFORE_MONTH month + (if (2 <? month) && leap then 1 else 0) in
  let '(m, d) :=
    if r <? preceding then
      (month - 1,
       r - (preceding - (_DAYS_IN_MONTH (month - 1)
                         + (if (month - 1 =? 2) && leap then 1 else 0))) + 1)
    else (month, r - preceding + 1) in
  1 ≤ m ≤ 12 ∧
  1 ≤ d ≤ (if (m =? 2) && leap then 29 else _DAYS_IN_MONTH m) ∧
  _DAYS_BEFORE_MONTH m + (if (2 <? m) && leap then 1 else 0) + d = r + 1.
Proof.
  intros Hr. rewrite Z.shiftr_div_pow2 by lia. change (2 ^ 5) with 32.
  assert (Hm : 1 ≤ (r + 50) / 32 ≤ 12) by (Z.div_mod_to_equations; lia).
  assert (Hq : 32 * ((r + 50) / 32) ≤ r + 50 < 32 * ((r + 50) / 32) + 32)
    by (Z.div_mod_to_equations; lia).
  set (month := (r + 50) / 32) in *. clearbody month. cbv zeta.
  assert (Hcases : month = 1 ∨ month = 2 ∨ month = 3 ∨ month = 4 ∨ month = 5 ∨
                   month = 6 ∨ month = 7 ∨ month = 8 ∨ month = 9 ∨ month = 10 ∨
                   month = 11 ∨ month = 12) by lia.
  destruct leap;
    repeat (destruct Hcases as [-> | Hcases]); subst; simpl;
    match goal with |- context [r <? ?p] => destruct (Z.ltb_spec r p) end;
    simpl; lia.
Qed.

Lemma ord2ymd_spec n :
  1 ≤ n ≤ _MAXORDINAL →
  let '(year, month, day) := _ord2ymd n in
  valid_ymd year month day = true ∧ _ymd2ord year month day = n.
Proof.
  intros Hn. unfold _ord2ymd, _MAXORDINAL, _DI400Y, _DI100Y, _DI4Y in *. cbv zeta.
  set (n0 := n - 1).
  set (n400 := n0 / 146097). set (r1 := n0 mod 146097).
  set (n100 := r1 / 36524). set (r2 := r1 mod 36524).
  set (n4 := r2 / 1461). set (r3 := r2 mod 1461).
  set (n1 := r3 / 365). set (r4 := r3 mod 365).
  assert (H400 : n0 = 146097 * n400 + r1 ∧ 0 ≤ r1 < 146097)
    by (unfold n400, r1; Z.div_mod_to_equations; lia).
  assert (H100 : r1 = 36524 * n100 + r2 ∧ 0 ≤ r2 < 36524)
    by (unfold n100, r2; Z.div_mod_to_equations; lia).
  assert (H4 : r2 = 1461 * n4 + r3 ∧ 0 ≤ r3 < 1461)
    by (unfold n4, r3; Z.div_mod_to_equations; lia).
  assert (H1 : r3 = 365 * n1 + r4 ∧ 0 ≤ r4 < 365)
    by (unfold n1, r4; Z.div_mod_to_equations; lia).
  assert (Hb : 0 ≤ n400 ≤ 24 ∧ 0 ≤ n100 ≤ 4 ∧ 0 ≤ n4 ≤ 24 ∧ 0 ≤ n1 ≤ 4) by (unfold n0 in *; lia).
  assert (Hn0 : n = n0 + 1) by (unfold n0; lia).
  clearbody n400 r1 n100 r2 n4 r3 n1 r4 n0.
  destruct ((n1 =? 4) || (n100 =? 4)) eqn:Hlast.
  - (* the last day of a leap year or of a 400-year cycle *)
    set (year := n400 * 400 + 1 + n100 * 100 + n4 * 4 + n1).
    assert (Hord : _days_before_year year = n).
    { apply orb_true_iff in Hlast as [->%Z.eqb_eq | ->%Z.eqb_eq].
      - replace year with (400 * n400 + 100 * n100 + 4 * (n4 + 1) + 0 + 1) by (unfold year; lia).
        rewrite days_before_year_split; lia.
      - replace year with (400 * (n400 + 1) + 100 * 0 + 4 * 0 + 0 + 1) by (unfold year; lia).
        rewrite days_before_year_split; lia. }
    assert (Hyear : 2 ≤ year ≤ 10000).
    { split; [apply orb_true_iff in Hlast as [->%Z.eqb_eq | ->%Z.eqb_eq]; unfold year; lia|].
      destruct (decide (year ≤ 10000)) as [|Hgt]; [done|].
      pose proof (days_before_year_le 10001 year ltac:(lia)) as Hle.
      change (_days_before_year 10001) with 3652425 in Hle. lia. }
    pose proof (days_before_year_succ (year - 1)) as Hsucc.
    replace (year - 1 + 1) with year in Hsucc by lia.
    pose proof (days_in_year (year - 1)) as Hdiy.
    change (_days_in_month (year - 1) 12) with 31 in Hdiy.
    split; [|unfold _ymd2ord; lia].
    apply valid_ymd_spec. unfold MINYEAR, MAXYEAR.
    change (_days_in_month (year - 1) 12) with 31. lia.
  - apply orb_false_iff in Hlast as [Hn1%Z.eqb_neq Hn100%Z.eqb_neq].
    set (year := n400 * 400 + 1 + n100 * 100 + n4 * 4 + n1).
    assert (Hyear_eq : year = 400 * n400 + 100 * n100 + 4 * n4 + n1 + 1) by (unfold year; lia).
    assert (Hdby : _days_before_year year = n0 - r4)
      by (rewrite Hyear_eq, days_before_year_split; lia).
    assert (Hleap : _is_leap year = (n1 =? 3) && (negb (n4 =? 24) || (n100 =? 3)))
      by (rewrite Hyear_eq; apply is_leap_split; lia).
    rewrite <- Hleap.
    assert (Hyear : 1 ≤ year ≤ 9999).
    { split; [lia|]. destruct (decide (year ≤ 9999)) as [|Hgt]; [done|].
      pose proof (days_before_year_le 10000 year ltac:(lia)) as Hle.
      change (_days_before_year 10000) with 3652059 in Hle. lia. }
    pose proof (ord2ymd_month_day (_is_leap year) r4 ltac:(lia)) as Hmd. cbv zeta in Hmd.
    destruct (r4 <? _) eqn:Hlt.
    + destruct Hmd as (Hm & Hd & Hsum). split.
      * apply valid_ymd_spec. unfold MINYEAR, MAXYEAR, _days_in_month. lia.
      * unfold _ymd2ord, _days_before_month. lia.
    + destruct Hmd as (Hm & Hd & Hsum). split.
      * apply valid_ymd_spec. unfold MINYEAR, MAXYEAR, _days_in_month. lia.
      * unfold _ymd2ord, _days_before_month. lia.
Qed.

(** The same month and day a year or more later is at least 365 days later. *)
Lemma same_day_later_year y1 y2 m d :
  1 ≤ m ≤ 12 → y1 < y2 →
  _ymd2ord y1 m d + 365 ≤ _ymd2ord y2 m d.
Proof.
  intros Hm Hlt. unfold _ymd2ord, _days_before_month.
  pose proof (days_before_year_mono y1 y2 Hlt).
  destruct (2 <? m); simpl; destruct (_is_leap y1), (_is_leap y2); lia.
Qed.

Lemma month_day_label_inj m1 d1 m2 d2 :
  1 ≤ m1 ≤ 12 → 1 ≤ d1 ≤ 31 → 1 ≤ m2 ≤ 12 → 1 ≤ d2 ≤ 31 →
  month_day_label (m1, d1) = month_day_label (m2, d2) → (m1, d1) = (m2, d2).
Proof.
  intros Hm1 Hd1 Hm2 Hd2.
  assert (Hall : Forall (λ a, Forall (λ b, month_day_label a = month_day_label b → a = b)
                                (cprod (seqZ 1 12) (seqZ 1 31)))
                   (cprod (seqZ 1 12) (seqZ 1 31))) by compute_done.
  assert (Hin : ∀ m d, 1 ≤ m ≤ 12 → 1 ≤ d ≤ 31 → (m, d) ∈ cprod (seqZ 1 12) (seqZ 1 31)).
  { intros m d Hm Hd. apply list_elem_of_cprod. simpl. rewrite !elem_of_seqZ. lia. }
  rewrite Forall_forall in Hall. specialize (Hall _ (Hin m1 d1 Hm1 Hd1)).
  rewrite Forall_forall in Hall. exact (Hall _ (Hin m2 d2 Hm2 Hd2)).
Qed.
End CalendarInverse.

Section Labels.
Import Calendar CalendarFacts CalendarInverse.

(** Within a year, [%b %d] tells the days apart. *)
Lemma strftime_b_d_inj (o1 o2 : date) :
  1 ≤ o1 ≤ _MAXORDINAL → 1 ≤ o2 ≤ _MAXORDINAL → -365 < o1 - o2 < 365 →
  strftime_b_d o1 = strftime_b_d o2 → o1 = o2.
Proof.
  intros H1 H2 Hnear. unfold strftime_b_d.
  pose proof (ord2ymd_spec o1 H1) as Hs1. pose proof (ord2ymd_spec o2 H2) as Hs2.
  destruct (_ord2ymd o1) as [[y1 m1] d1], (_ord2ymd o2) as [[y2 m2] d2].
  destruct Hs1 as [Hv1 <-], Hs2 as [Hv2 <-].
  pose proof Hv1 as (Hy1 & Hm1 & Hd1)%valid_ymd_spec.
  pose proof Hv2 as (Hy2 & Hm2 & Hd2)%valid_ymd_spec.
  pose proof (days_in_month_bounds y1 m1 Hm1). pose proof (days_in_month_bounds y2 m2 Hm2).
  intros Hlabel.
  pose proof (month_day_label_inj m1 d1 m2 d2 Hm1 ltac:(lia) Hm2 ltac:(lia) Hlabel) as Hmd.
  injection Hmd as -> ->.
  destruct (Z.lt_trichotomy y1 y2) as [Hlt | [-> | Hgt]]; [|done|].
  - pose proof (same_day_later_year y1 y2 m2 d2 Hm2 Hlt). lia.
  - pose proof (same_day_later_year y2 y1 m2 d2 Hm2 ltac:(lia)). lia.
Qed.

Lemma window_labels_NoDup (today : date) :
  30 < today ≤ _MAXORDINAL → NoDup (strftime_b_d <$> seqZ (today - 30) 31).
Proof.
  intros Hclock. apply NoDup_fmap_2_strong; [|apply NoDup_seqZ].
  intros o1 o2 Ho1%elem_of_seqZ Ho2%elem_of_seqZ. apply strftime_b_d_inj; lia.
Qed.
End Labels.

Section Dict.
Context {V : Type}.
Implicit Types (d : list (string * V)).

Lemma dict_setitem_fresh d k v : k ∉ d.*1 → dict_setitem k v d = d ++ [(k, v)].
Proof.
  induction d as [|[k' v'] d IH]; intros Hk; simpl; [done|].
  rewrite fmap_cons, not_elem_of_cons in Hk. destruct Hk as [Hne Hk]. simpl in Hne.
  rewrite decide_False by done. by rewrite IH.
Qed.

(** Pairs with distinct keys make a dictionary with the same items in the
    same order. *)
Lemma dict_of_pairs_NoDup (pairs : list (string * V)) :
  NoDup pairs.*1 → dict_of_pairs pairs = pairs.
Proof.
  unfold dict_of_pairs. induction pairs as [|[k v] pairs IH] using rev_ind; [done|].
  rewrite fmap_app, NoDup_app. intros (Hnd & Hnotin & _).
  rewrite foldl_app, IH by done. simpl. apply dict_setitem_fresh.
  intros Hin. apply (Hnotin k Hin). simpl. left.
Qed.
End Dict.

Section Reports.
Implicit Types (w : world).

Lemma str_service_error_is_Some (e : exn) :
  is_Some (str_service_error e) ↔ is_ChessRankingsServiceError e = true.
Proof. destruct e; simpl; split; (done || by intros []). Qed.

Lemma collect_loop_out_rows (out : list string) (data_rows : list row)
    (completed : list future) :
  (collect_loop_out out data_rows completed).2 = collect_loop data_rows completed.
Proof.
  revert out data_rows. induction completed as [|[u outcome] completed IH];
    intros out data_rows; simpl; [done|].
  destruct outcome as [ratings|e]; simpl; [apply IH|].
  destruct e; simpl; try done; apply IH.
Qed.

Lemma submitted_row_width w usernames (f : future) :
  f ∈ submit_all w usernames → length (row_of f).2 = 31%nat.
Proof.
  unfold submit_all. intros (u & -> & _)%list_elem_of_fmap. unfold row_of. simpl.
  destruct (_get_last_30_days_classical_ratings_for_player w u) as [ratings|] eqn:Hu.
  - by eapply per_player_length.
  - done.
Qed.

Lemma as_completed_subseteq schedule (futures : list future) (f : future) :
  f ∈ as_completed schedule futures → f ∈ futures.
Proof.
  unfold as_completed. intros (i & _ & Hi)%list_elem_of_omap.
  by eapply list_elem_of_lookup_2.
Qed.
End Reports.

Section Diagnostics.

Lemma omap_diagnostic_cons (f : future) (completed : list future) :
  omap diagnostic (f :: completed) =
  match diagnostic f with
  | Some line => line :: omap diagnostic completed
  | None => omap diagnostic completed
  end.
Proof. done. Qed.

Lemma collect_loop_out_lines (out : list string) (data_rows : list row)
    (completed : list future) :
  Forall (λ f, handled f.2) completed →
  (collect_loop_out out data_rows completed).1 = out ++ omap diagnostic completed.
Proof.
  intros Hall. revert out data_rows.
  induction Hall as [|[u outcome] completed Hf _ IH]; intros out data_rows.
  - simpl. by rewrite app_nil_r.
  - rewrite omap_diagnostic_cons. unfold diagnostic at 1.
    destruct outcome as [ratings|e]; simpl in *; [apply IH|].
    apply str_service_error_is_Some in Hf as [message Hm]. rewrite Hm. simpl.
    by rewrite IH, <- app_assoc.
Qed.

Lemma length_omap_diagnostic (completed : list future) :
  Forall (λ f, handled f.2) completed →
  length (omap diagnostic completed)
  = length (filter (λ f, failed f.2) completed).
Proof.
  induction 1 as [|[u outcome] completed Hf _ IH]; [done|].
  rewrite omap_diagnostic_cons, filter_cons. unfold diagnostic at 1.
  destruct outcome as [ratings|e]; simpl in Hf.
  - rewrite decide_False by (by intros []). apply IH.
  - apply str_service_error_is_Some in Hf as [message Hm].
    rewrite decide_True by done. simpl. rewrite Hm. simpl. by rewrite IH.
Qed.
End Diagnostics.

(** X10. The loop of the bulk export builds the same rows whether or not its
    printing is looked at, and when it handles every failure it prints one
    line for each failed task, in completion order, that names the player
    and carries the text of the error; it prints nothing for the others. *)
Theorem batch_prints_one_line_per_failure (completed : list future) :
  (collect_loop_out [] [] completed).2 = collect_loop [] completed ∧
  (Forall (λ f, handled f.2) completed →
   (collect_loop_out [] [] completed).1 = omap diagnostic completed ∧
   length (collect_loop_out [] [] completed).1
   = length (filter (λ f, failed f.2) completed)).
Proof.
  split; [apply collect_loop_out_rows|]. intros Hall.
  rewrite collect_loop_out_lines by done. simpl.
  split; [done | by apply length_omap_diagnostic].
Qed.

Lemma batch_prints_one_line_per_failure_witness :
  let completed := as_completed [2; 0; 1]%nat
                     (submit_all (sample_world []) ["alice"; "dave"; "erin"]) in
  Forall (λ f : future, handled f.2) completed ∧
  (collect_loop_out [] [] completed).1 =
  [ "An error occurred while processing user erin: APIError: An error occurred while fetching data: 404 Client Error | URL: https://lichess.org/api/user/erin/rating-history";
    "An error occurred while processing user dave: Rating history not found for user 'dave'" ].
Proof.
  intros completed.
  assert (H1 : Forall (λ f : future, handled f.2) completed).
  { vm_compute. repeat (apply Forall_cons_2; [first [exact I | reflexivity] |]).
    apply Forall_nil_2. }
  refine (conj H1 _).
  rewrite (proj1 (proj2 (batch_prints_one_line_per_failure completed) H1)).
  vm_compute. reflexivity.
Defined.

(** X11. The single-player report. With the clock in range, when the
    leaderboard query for one player returns a list and its first player's
    computation returns ratings, the report shows that player with a
    dictionary of 31 items, one for each day of the window in chronological
    order: the 31 [%b %d] labels are pairwise distinct, so no day's rating is
    overwritten by another's. *)
Theorem top_player_trend (w : world) (username : string) (usernames : list string)
    (ratings : list (option Z)) :
  30 < now_date w ≤ Calendar._MAXORDINAL →
  _get_top_players_usernames w 1 = Ok (username :: usernames) →
  _get_last_30_days_classical_ratings_for_player w username = Ok ratings →
  ∃ output_ratings,
    print_last_30_day_rating_for_top_player w = Ok (username, output_ratings) ∧
    output_ratings.*1 = strftime_b_d <$> seqZ (now_date w - 30) 31 ∧
    output_ratings.*2 = ratings ∧
    NoDup output_ratings.*1 ∧
    length output_ratings = 31%nat.
Proof.
  intros Hclock Htop Hratings. unfold print_last_30_day_rating_for_top_player.
  rewrite Htop. cbn [mbind result_bind].
  change ((username :: usernames) !! 0%nat) with (Some username).
  cbn [from_option mbind result_bind]. rewrite Hratings. cbn [mbind result_bind].
  rewrite (last_30_days_ok _ Hclock). cbn [mbind result_bind].
  pose proof (per_player_length _ _ _ Hratings) as Hlen.
  pose proof (window_labels_NoDup _ Hclock) as Hnd.
  assert (Hlabels : length (strftime_b_d <$> seqZ (now_date w - 30) 31) = 31%nat)
    by (by rewrite length_fmap, length_seqZ).
  assert (Hfst : (zip (strftime_b_d <$> seqZ (now_date w - 30) 31) ratings).*1
                 = strftime_b_d <$> seqZ (now_date w - 30) 31)
    by (apply fst_zip; lia).
  eexists. split; [done|].
  rewrite dict_of_pairs_NoDup by (by rewrite Hfst).
  split_and!; [done|apply snd_zip; lia|by rewrite Hfst|rewrite length_zip; lia].
Qed.

Lemma top_player_trend_witness :
  let w := sample_world [None; Some "alice"; Some "bob"] in
  30 < now_date w ≤ Calendar._MAXORDINAL ∧
  _get_top_players_usernames w 1 = Ok ["alice"; "bob"] ∧
  (∃ ratings, _get_last_30_days_classical_ratings_for_player w "alice" = Ok ratings) ∧
  ∃ output_ratings,
    print_last_30_day_rating_for_top_player w = Ok ("alice", output_ratings) ∧
    length output_ratings = 31%nat.
Proof.
  intros w.
  assert (H1 : 30 < now_date w ≤ Calendar._MAXORDINAL)
    by (vm_compute; split; [reflexivity | discriminate]).
  assert (H2 : _get_top_players_usernames w 1 = Ok ["alice"; "bob"])
    by (vm_compute; reflexivity).
  assert (H3 : _get_last_30_days_classical_ratings_for_player w "alice"
               = Ok (replicate 23 None ++ replicate 5 (Some 1500) ++ replicate 3 (Some 1550)))
    by (vm_compute; reflexivity).
  refine (conj H1 (conj H2 (conj (ex_intro _ _ H3) _))).
  destruct (top_player_trend w "alice" ["bob"] _ H1 H2 H3)
    as (output_ratings & Hprint & _ & _ & _ & Hlen).
  exists output_ratings. exact (conj Hprint Hlen).
Defined.

(** X12. The single-player report fails with the builtin [IndexError], which
    is no error of the service, when the leaderboard has players but none
    with a usable username; an error of the leaderboard query or of the
    player's computation is passed on unchanged. *)
Theorem top_player_trend_raises (w : world) :
  (∀ players,
      get_leaderboard w (leaderboard_url 1)
      = Json (Some {| users := Some (Some players) |}) →
      players ≠ [] → Forall blank players →
      print_last_30_day_rating_for_top_player w = Raise IndexError ∧
      is_ChessRankingsServiceError IndexError = false) ∧
  (∀ e, _get_top_players_usernames w 1 = Raise e →
        print_last_30_day_rating_for_top_player w = Raise e) ∧
  (∀ username usernames e,
      _get_top_players_usernames w 1 = Ok (username :: usernames) →
      _get_last_30_days_classical_ratings_for_player w username = Raise e →
      print_last_30_day_rating_for_top_player w = Raise e).
Proof.
  unfold print_last_30_day_rating_for_top_player. split_and!.
  - intros players Hdoc Hne Hblank. split; [|done].
    rewrite (top_players_listed _ _ _ Hdoc Hne).
    assert (omap truthy_username players = []) as ->; [|done].
    clear Hdoc Hne. induction Hblank as [|p players Hp _ IH]; [done|].
    rewrite omap_truthy_cons. by rewrite (proj2 (truthy_username_None p) Hp).
  - by intros e ->.
  - intros username usernames e -> Hplayer. simpl. by rewrite Hplayer.
Qed.

Lemma top_player_trend_raises_witness :
  print_last_30_day_rating_for_top_player (sample_world [None; Some ""]) = Raise IndexError.
Proof.
  apply (proj1 (top_player_trend_raises (sample_world [None; Some ""]))
           [ {| player_username := None |}; {| player_username := Some "" |} ] eq_refl).
  - discriminate.
  - apply Forall_cons_2; [by left|]. apply Forall_cons_2; [by right|]. apply Forall_nil_2.
Defined.

(** X13. The table of the bulk export is rectangular. Whenever it is
    produced, the header has 32 columns, "username" followed by the ISO dates
    of the window, the last one today's; every data row has a username and 31
    ratings, whether its player's computation succeeded or failed; and for
    tasks collected in a completion order there is exactly one row for each
    username of the leaderboard. *)
Theorem csv_table_shape (w : world) (schedule : list nat) (header : list string)
    (data_rows : list row) :
  csv_table w schedule = Ok (header, data_rows) →
  length header = 32%nat ∧
  header !! 0%nat = Some "username" ∧
  header !! 31%nat = Some (strftime_Y_m_d (now_date w)) ∧
  Forall (λ row : row, S (length row.2) = length header) data_rows ∧
  ∃ usernames,
    _get_top_players_usernames w 50 = Ok usernames ∧
    (is_completion_order schedule (submit_all w usernames) →
     data_rows.*1 ≡ₚ usernames).
Proof.
  unfold csv_table. destruct (_get_top_players_usernames w 50) as [usernames|] eqn:Htop;
    [|done]. simpl.
  destruct (last_30_days (now_date w)) as [dates|] eqn:Hdates; [|done]. simpl.
  destruct (generate_rating_csv_for_top_50_classical_players w schedule).2
    as [rows|] eqn:Hrows; [|done]. simpl. intros [= <- <-].
  pose proof (last_30_days_inv _ _ Hdates) as Hclock.
  rewrite (last_30_days_ok _ Hclock) in Hdates. injection Hdates as <-.
  pose proof (generate_completed_inv _ _ _ _ Htop Hrows) as ->.
  assert (Hperm : sort_rows usernames
                    (row_of <$> as_completed schedule (submit_all w usernames))
                  ≡ₚ row_of <$> as_completed schedule (submit_all w usernames))
    by apply sort_by_key_Permutation.
  assert (Hheader : length ("username" :: (strftime_Y_m_d <$> seqZ (now_date w - 30) 31))
                    = 32%nat) by (by rewrite length_cons, length_fmap, length_seqZ).
  rewrite Hheader. split_and!.
  - done.
  - done.
  - change (("username" :: (strftime_Y_m_d <$> seqZ (now_date w - 30) 31)) !! 31%nat)
      with ((strftime_Y_m_d <$> seqZ (now_date w - 30) 31) !! 30%nat).
    rewrite list_lookup_fmap, (lookup_seqZ_lt _ _ 30) by lia.
    cbn [fmap option_fmap option_map]. do 2 f_equal. lia.
  - rewrite Hperm. apply Forall_fmap, Forall_forall. intros f Hf.
    cbn [compose].
    by rewrite (submitted_row_width w usernames f (as_completed_subseteq _ _ _ Hf)).
  - exists usernames. split; [done|]. intros Hsched.
    rewrite Hperm, (as_completed_Permutation _ _ Hsched).
    unfold submit_all. rewrite <- !list_fmap_compose. by rewrite list_fmap_id.
Qed.

Lemma csv_table_shape_witness :
  ∃ header data_rows,
    csv_table (sample_world [Some "alice"; Some "dave"]) [1; 0]%nat = Ok (header, data_rows) ∧
    length header = 32%nat ∧
    Forall (λ row : row, S (length row.2) = length header) data_rows.
Proof.
  destruct (csv_table (sample_world [Some "alice"; Some "dave"]) [1; 0]%nat)
    as [[header data_rows]|] eqn:Htable.
  - exists header, data_rows.
    destruct (csv_table_shape _ _ _ _ Htable) as (Hlen & _ & _ & Hrows & _).
    exact (conj eq_refl (conj Hlen Hrows)).
  - exfalso. vm_compute in Htable. discriminate Htable.
Defined.

(** ** The order of the rows *)

Section Stable.
Local Open Scope nat_scope.
Context {A : Type} (key : A → nat).

Lemma filter_insert_by_key (k : nat) (x : A) (l : list A) :
  filter (λ a, key a = k) (insert_by_key key x l) =
  if decide (key x = k) then x :: filter (λ a, key a = k) l
  else filter (λ a, key a = k) l.
Proof.
  induction l as [|y l IH]; simpl.
  - rewrite filter_cons. by destruct (decide (key x = k)).
  - destruct (Nat.leb_spec (key x) (key y)) as [Hle|Hgt].
    + by rewrite filter_cons.
    + rewrite !(filter_cons _ y), IH.
      destruct (decide (key x = k)), (decide (key y = k)); try done. lia.
Qed.

(** Sorting keeps the elements of equal key in their order. *)
Lemma sort_by_key_stable (k : nat) (l : list A) :
  filter (λ a, key a = k) (sort_by_key key l) = filter (λ a, key a = k) l.
Proof.
  induction l as [|x l IH]; [done|].
  change (sort_by_key key (x :: l)) with (insert_by_key key x (sort_by_key key l)).
  rewrite filter_insert_by_key, filter_cons, IH. done.
Qed.
End Stable.

Section Order.
Local Open Scope nat_scope.

Lemma username_order_absent (usernames : list string) (username : string) :
  username ∉ usernames → username_order usernames !! username = None.
Proof.
  induction usernames as [|v usernames IH] using rev_ind; [done|].
  rewrite not_elem_of_app, not_elem_of_cons. intros [Hnotin [Hne _]].
  rewrite username_order_snoc, lookup_insert_ne by done. by apply IH.
Qed.

Lemma username_order_last (usernames : list string) (username : string) (i : nat) :
  username_order usernames !! username = Some i →
  usernames !! i = Some username ∧ ∀ j, usernames !! j = Some username → j ≤ i.
Proof.
  revert i. induction usernames as [|v usernames IH] using rev_ind; intros i; [done|].
  rewrite username_order_snoc. destruct (decide (v = username)) as [->|Hne].
  - rewrite lookup_insert_eq. intros [= <-]. split.
    + by rewrite list_lookup_middle.
    + intros j Hj%lookup_lt_Some. rewrite length_app in Hj. simpl in Hj. lia.
  - rewrite lookup_insert_ne by done. intros [Hi Hlast]%IH. split.
    + by apply lookup_app_l_Some.
    + intros j Hj. apply lookup_app_Some in Hj as [Hj | [_ Hj]]; [by apply Hlast|].
      apply list_lookup_singleton_Some in Hj as [_ ->]. done.
Qed.

Lemma username_order_present (usernames : list string) (username : string) :
  username ∈ usernames → is_Some (username_order usernames !! username).
Proof.
  induction usernames as [|v usernames IH] using rev_ind; [by intros ?%elem_of_nil|].
  rewrite username_order_snoc. destruct (decide (v = username)) as [->|Hne].
  - rewrite lookup_insert_eq. eauto.
  - rewrite lookup_insert_ne by done. rewrite elem_of_app, list_elem_of_singleton.
    intros [Hin | ->]; [by apply IH | done].
Qed.
End Order.

(** X14. The dictionary that orders the rows gives a username the position
    of its last occurrence in the list, and has no entry for a username that
    is not in the list. *)
Theorem username_order_last_index (usernames : list string) (username : string) :
  match username_order usernames !! username with
  | Some i =>
      usernames !! i = Some username ∧
      ∀ j, usernames !! j = Some username → (j ≤ i)%nat
  | None => username ∉ usernames
  end.
Proof.
  destruct (username_order usernames !! username) as [i|] eqn:Hi.
  - by apply username_order_last.
  - intros [i Hi']%username_order_present. congruence.
Qed.

(** X15. Sorting the rows loses and invents nothing and is stable: the
    result is a rearrangement of the rows in ascending order of their keys,
    in which the rows of equal key, such as the rows of one username, keep
    the order in which they were collected; a row whose username is not in
    the list has key 0. *)
Theorem sort_rows_stable (usernames : list string) (data_rows : list row) :
  let key := λ row : row, default 0%nat (username_order usernames !! row.1) in
  sort_rows usernames data_rows ≡ₚ data_rows ∧
  StronglySorted (key_le key) (sort_rows usernames data_rows) ∧
  (∀ k, filter (λ row, key row = k) (sort_rows usernames data_rows)
        = filter (λ row, key row = k) data_rows) ∧
  (∀ row, row.1 ∉ usernames → key row = 0%nat).
Proof.
  intros key. unfold sort_rows. fold key. split_and!.
  - apply sort_by_key_Permutation.
  - apply sort_by_key_sorted.
  - intros k. apply sort_by_key_stable.
  - intros row Hrow. unfold key. by rewrite username_order_absent.
Qed.

(** X16. A leaderboard whose players all lack a usable username makes the
    bulk export fail before any task is submitted: the worker pool is asked
    for [min(10, 0) = 0] workers and raises the builtin [ValueError], which
    is no error of the service. *)
Theorem bulk_export_without_usernames (w : world) (schedule : list nat)
    (players : list player) :
  get_leaderboard w (leaderboard_url 50) = Json (Some {| users := Some (Some players) |}) →
  players ≠ [] →
  Forall blank players →
  30 < now_date w ≤ Calendar._MAXORDINAL →
  _get_top_players_usernames w 50 = Ok [] ∧
  generate_rating_csv_for_top_50_classical_players w schedule = ([], Raise ValueError) ∧
  is_ChessRankingsServiceError ValueError = false.
Proof.
  intros Hdoc Hne Hblank Hclock.
  assert (Htop : _get_top_players_usernames w 50 = Ok []).
  { rewrite (top_players_listed _ _ _ Hdoc Hne). f_equal.
    clear Hdoc Hne. induction Hblank as [|p players Hp _ IH]; [done|].
    rewrite omap_truthy_cons. by rewrite (proj2 (truthy_username_None p) Hp). }
  split_and!; [done| |done].
  unfold generate_rating_csv_for_top_50_classical_players.
  by rewrite Htop, (last_30_days_ok _ Hclock).
Qed.

Lemma bulk_export_without_usernames_witness :
  let w := sample_world [None; Some ""] in
  let players := [ {| player_username := None |}; {| player_username := Some "" |} ] in
  get_leaderboard w (leaderboard_url 50) = Json (Some {| users := Some (Some players) |}) ∧
  players ≠ [] ∧
  Forall blank players ∧
  30 < now_date w ≤ Calendar._MAXORDINAL ∧
  generate_rating_csv_for_top_50_classical_players w [] = ([], Raise ValueError).
Proof.
  intros w players.
  assert (H1 : get_leaderboard w (leaderboard_url 50)
               = Json (Some {| users := Some (Some players) |})) by reflexivity.
  assert (H2 : players ≠ []) by discriminate.
  assert (H3 : Forall blank players).
  { apply Forall_cons_2; [by left|]. apply Forall_cons_2; [by right|]. apply Forall_nil_2. }
  assert (H4 : 30 < now_date w ≤ Calendar._MAXORDINAL)
    by (vm_compute; split; [reflexivity | discriminate]).
  refine (conj H1 (conj H2 (conj H3 (conj H4 _)))).
  exact (proj1 (proj2 (bulk_export_without_usernames w [] players H1 H2 H3 H4))).
Defined.
